(** * Multi-bot cluster orchestration: command locks, routing, load balancing

    A shallow embedding of the coordination logic of the multi-bot music
    cluster:
    - the global command-lock table of [src/orchestrator.js]
      ([acquireCommandLock], [releaseCommandLock], [hasCommandLock]);
    - the routing decision [shouldHandleCommand] of
      [src/events/Client/InteractionCreate.js];
    - the [LoadBalancer] ([_updateBotStatus], [assignBot],
      [_selectByPriority]);
    - the [GuildAssignment] store of [src/schemas/GuildAssignment.js]
      ([getOrCreateAssignment], [touch], [releaseInactiveAssignments]).

    Clock readings ([Date.now()]) are explicit [Z] arguments in
    milliseconds; JavaScript [Map]s keyed by strings are stdpp [gmap]s,
    and a [Collection] iterated in insertion order is an association
    list. *)

From Stdlib Require Import String ZArith Lia List Bool.
From stdpp Require Import base gmap strings list fin_maps.

Open Scope Z_scope.
Open Scope string_scope.

(* ===================================================================== *)
(** ** Command locks ([src/orchestrator.js], lines 37-108) *)
(* ===================================================================== *)

Module Locks.

(** [{ botId: string, timestamp: number }] *)
Record lock_entry := mk_lock { botId : string; timestamp : Z }.

(** [const commandLocks = new Map()] : guild id -> lock entry. *)
Abbreviation lock_table := (gmap string lock_entry).

(** [const LOCK_TIMEOUT = 10000] *)
Definition LOCK_TIMEOUT : Z := 10000.

(** [acquireCommandLock(guildId, botId)] at clock reading [now]: the
    boolean result and the table afterwards. An expired entry is deleted
    and then overwritten by the new entry. *)
Definition acquireCommandLock (commandLocks : lock_table) (guildId bid : string)
    (now : Z) : bool * lock_table :=
  let acquire (m : lock_table) := (true, <[guildId := mk_lock bid now]> m) in
  match commandLocks !! guildId with
  | Some existing =>
      if Z.gtb (now - timestamp existing) LOCK_TIMEOUT
      then acquire (delete guildId commandLocks)
      else if negb (String.eqb (botId existing) bid) then (false, commandLocks)
      else (true, commandLocks)
  | None => acquire commandLocks
  end.

(** [releaseCommandLock(guildId, botId)] *)
Definition releaseCommandLock (commandLocks : lock_table) (guildId bid : string)
    : lock_table :=
  match commandLocks !! guildId with
  | Some existing =>
      if String.eqb (botId existing) bid then delete guildId commandLocks
      else commandLocks
  | None => commandLocks
  end.

(** [hasCommandLock(guildId, botId)] at clock reading [now]; an expired
    entry is deleted on the way. *)
Definition hasCommandLock (commandLocks : lock_table) (guildId bid : string)
    (now : Z) : bool * lock_table :=
  match commandLocks !! guildId with
  | None => (false, commandLocks)
  | Some existing =>
      if Z.gtb (now - timestamp existing) LOCK_TIMEOUT
      then (false, delete guildId commandLocks)
      else (String.eqb (botId existing) bid, commandLocks)
  end.

(** A sequence of [acquireCommandLock] calls for one guild, each call a
    (bot id, clock reading) pair, run one after the other. *)
Fixpoint acquire_seq (commandLocks : lock_table) (guildId : string)
    (calls : list (string * Z)) : list bool * lock_table :=
  match calls with
  | [] => ([], commandLocks)
  | (b, t) :: rest =>
      let '(r, m) := acquireCommandLock commandLocks guildId b t in
      let '(rs, m') := acquire_seq m guildId rest in
      (r :: rs, m')
  end.

(** Number of calls that returned [true]. *)
Definition count_true (rs : list bool) : nat := length (filter (fun b : bool => b) rs).

(** The peer holding an unexpired lock on [guildId] at clock reading [now]. *)
Definition lock_holder (commandLocks : lock_table) (guildId : string) (now : Z)
    : option string :=
  match commandLocks !! guildId with
  | Some e => if Z.gtb (now - timestamp e) LOCK_TIMEOUT then None else Some (botId e)
  | None => None
  end.

End Locks.

(* ===================================================================== *)
(** ** Stable sorting ([Array.prototype.sort]) *)
(* ===================================================================== *)

Module JsSort.

(** [Array.prototype.sort(compare)] is a stable sort: for a comparator
    that orders its inputs consistently it yields the same list as this
    insertion sort, which inserts each element after every element it does
    not compare strictly below. *)
Fixpoint insert_by {A} (cmp : A -> A -> Z) (x : A) (l : list A) : list A :=
  match l with
  | [] => [x]
  | y :: l' => if Z.ltb (cmp x y) 0 then x :: y :: l' else y :: insert_by cmp x l'
  end.

Definition sort_by {A} (cmp : A -> A -> Z) (l : list A) : list A :=
  fold_left (fun acc x => insert_by cmp x acc) l [].

End JsSort.

(* ===================================================================== *)
(** ** Bot clients ([src/structures/Client.js] as used by the callers) *)
(* ===================================================================== *)

Module Cluster.

(** A Lavalink player: only its [voiceChannelId] (possibly [null]) is read. *)
Record player := mk_player { voiceChannelId : option string }.

(** The fields of a [BotClient] read by the routing and balancing code:
    [botId], [isMainBot], [isReady()], the cached [playerCount] written by
    the heartbeat ([undefined] reads as [0] through [|| 0]), the
    [lavalink] manager with its [players] map (absent when [lavalink] is
    not initialised), and [botConfig.clientId]. *)
Record client := mk_client {
  botId : string;
  isMainBot : bool;
  isReady : bool;
  playerCount : Z;
  lavalink : option (gmap string player);
  clientId : string
}.

(** [client.lavalink?.players?.get(guildId)] *)
Definition get_player (c : client) (guildId : string) : option player :=
  match lavalink c with
  | Some players => players !! guildId
  | None => None
  end.

(** [client.lavalink?.players?.size || 0] *)
Definition players_size (c : client) : Z :=
  match lavalink c with
  | Some players => Z.of_nat (size players)
  | None => 0
  end.

(** JavaScript truthiness of a [string | null]: [null] and [""] are falsy. *)
Definition truthy (s : option string) : bool :=
  match s with
  | Some v => negb (String.eqb v "")
  | None => false
  end.

(** [===] on two [string | null] values. *)
Definition str_eqb (a b : option string) : bool :=
  match a, b with
  | Some x, Some y => String.eqb x y
  | None, None => true
  | _, _ => false
  end.

(** [this.botCluster] / [orchestrator.bots]: a [Collection] (a [Map])
    from bot id to client, iterated in insertion order. *)
Abbreviation bot_cluster := (list (string * client)).

(** [botCluster.get(id)] *)
Fixpoint cluster_get (bots : bot_cluster) (id : string) : option client :=
  match bots with
  | [] => None
  | (k, c) :: rest => if String.eqb k id then Some c else cluster_get rest id
  end.

End Cluster.

(* ===================================================================== *)
(** ** Guild assignments ([src/schemas/GuildAssignment.js]) *)
(* ===================================================================== *)

Module Store.

(** A [GuildAssignment] document. Dates are clock readings in ms. The
    schema is declared with [{ timestamps: true }], so Mongoose keeps
    [createdAt] and [updatedAt] on every document and sets [updatedAt] on
    every [save()] and on every document matched by [updateMany]. *)
Record assignment := mk_assignment {
  _id : string;
  assignedBotId : string;
  assignedClientId : string;
  voiceChannelId : option string;
  textChannelId : option string;
  isActive : bool;
  assignedAt : Z;
  lastActivity : Z;
  assignmentReason : string;
  previousBotId : option string;
  createdAt : Z;
  updatedAt : Z
}.

(** The [GuildAssignment] collection, indexed by [_id] (the guild id). *)
Abbreviation store := (gmap string assignment).

(** [this.create({ _id, assignedBotId, assignedClientId, assignmentReason })]
    at clock reading [now], with the schema defaults for the other fields. *)
Definition create (now : Z) (guildId botId clientId reason : string) : assignment :=
  {| _id := guildId; assignedBotId := botId; assignedClientId := clientId;
     voiceChannelId := None; textChannelId := None; isActive := false;
     assignedAt := now; lastActivity := now; assignmentReason := reason;
     previousBotId := None; createdAt := now; updatedAt := now |}.

(** [GuildAssignment.findById(guildId)] *)
Definition findById (db : store) (guildId : string) : option assignment :=
  db !! guildId.

(** [getOrCreateAssignment(guildId, botId, clientId, reason)]: an existing
    document is returned as it is; a missing one is created. *)
Definition getOrCreateAssignment (db : store) (now : Z)
    (guildId botId clientId reason : string) : assignment * store :=
  match findById db guildId with
  | Some a => (a, db)
  | None =>
      let a := create now guildId botId clientId reason in
      (a, <[guildId := a]> db)
  end.

(** [assignment.touch()]: [lastActivity = new Date()], then [save()]
    (which also stamps [updatedAt]). *)
Definition touch (db : store) (now : Z) (a : assignment) : assignment * store :=
  let a' := {| _id := _id a; assignedBotId := assignedBotId a;
               assignedClientId := assignedClientId a;
               voiceChannelId := voiceChannelId a; textChannelId := textChannelId a;
               isActive := isActive a; assignedAt := assignedAt a;
               lastActivity := now; assignmentReason := assignmentReason a;
               previousBotId := previousBotId a; createdAt := createdAt a;
               updatedAt := now |} in
  (a', <[_id a := a']> db).

(** The update [{ $set: { isActive: false } }] applied by [updateMany] at
    clock reading [now], with the [updatedAt] stamp the schema's
    [timestamps] option adds to it. *)
Definition set_inactive (now : Z) (a : assignment) : assignment :=
  {| _id := _id a; assignedBotId := assignedBotId a;
     assignedClientId := assignedClientId a;
     voiceChannelId := voiceChannelId a; textChannelId := textChannelId a;
     isActive := false; assignedAt := assignedAt a;
     lastActivity := lastActivity a; assignmentReason := assignmentReason a;
     previousBotId := previousBotId a; createdAt := createdAt a;
     updatedAt := now |}.

(** The filter [{ isActive: true, lastActivity: { $lt: inactiveTime } }]. *)
Definition is_stale (inactiveTime : Z) (a : assignment) : bool :=
  isActive a && Z.ltb (lastActivity a) inactiveTime.

(** [releaseInactiveAssignments(inactiveThreshold = 300000)] at clock
    reading [now]. *)
Definition releaseInactiveAssignments (db : store) (now : Z)
    (inactiveThreshold : Z) : store :=
  let inactiveTime := now - inactiveThreshold in
  (fun a => if is_stale inactiveTime a then set_inactive now a else a) <$> db.

Definition DEFAULT_INACTIVE_THRESHOLD : Z := 300000.

(** [assignment.activate(voiceChannelId, textChannelId)] (lines 146-152). *)
Definition activate (db : store) (now : Z) (a : assignment)
    (vc tc : option string) : assignment * store :=
  let a' := {| _id := _id a; assignedBotId := assignedBotId a;
               assignedClientId := assignedClientId a;
               voiceChannelId := vc; textChannelId := tc;
               isActive := true; assignedAt := assignedAt a;
               lastActivity := now; assignmentReason := assignmentReason a;
               previousBotId := previousBotId a; createdAt := createdAt a;
               updatedAt := now |} in
  (a', <[_id a := a']> db).

(** [assignment.deactivate()] (lines 155-160). *)
Definition deactivate (db : store) (now : Z) (a : assignment) : assignment * store :=
  let a' := {| _id := _id a; assignedBotId := assignedBotId a;
               assignedClientId := assignedClientId a;
               voiceChannelId := None; textChannelId := textChannelId a;
               isActive := false; assignedAt := assignedAt a;
               lastActivity := now; assignmentReason := assignmentReason a;
               previousBotId := previousBotId a; createdAt := createdAt a;
               updatedAt := now |} in
  (a', <[_id a := a']> db).

(** [reassignGuild(guildId, newBotId, newClientId, reason = 'failover')]
    (lines 110-129). *)
Definition reassignGuild (db : store) (now : Z)
    (guildId newBotId newClientId reason : string) : assignment * store :=
  match findById db guildId with
  | Some a =>
      let a' := {| _id := _id a; assignedBotId := newBotId;
                   assignedClientId := newClientId;
                   voiceChannelId := voiceChannelId a; textChannelId := textChannelId a;
                   isActive := isActive a; assignedAt := now;
                   lastActivity := lastActivity a; assignmentReason := reason;
                   previousBotId := Some (assignedBotId a); createdAt := createdAt a;
                   updatedAt := now |} in
      (a', <[_id a := a']> db)
  | None =>
      let a := create now guildId newBotId newClientId reason in
      (a, <[guildId := a]> db)
  end.

(** A well-formed collection stores every document under its own [_id]. *)
Definition wf (db : store) : Prop :=
  forall k a, db !! k = Some a -> _id a = k.

(** Two documents agree on every field except [isActive] and [updatedAt]. *)
Definition same_document_fields (a b : assignment) : Prop :=
  _id a = _id b /\ assignedBotId a = assignedBotId b /\
  assignedClientId a = assignedClientId b /\
  voiceChannelId a = voiceChannelId b /\ textChannelId a = textChannelId b /\
  assignedAt a = assignedAt b /\ lastActivity a = lastActivity b /\
  assignmentReason a = assignmentReason b /\ previousBotId a = previousBotId b /\
  createdAt a = createdAt b.

End Store.

(* ===================================================================== *)
(** ** Command routing ([shouldHandleCommand],
       [src/events/Client/InteractionCreate.js], lines 31-191) *)
(* ===================================================================== *)

Module Router.
Import Cluster.

(** [String.prototype.localeCompare] is taken as a parameter: its ICU
    collation is not modelled; [failoverBots.sort] only uses its sign. *)
Section Routing.
Variable localeCompare : string -> string -> Z.

(** The caller's decision and the lock table afterwards. *)
Abbreviation result := (bool * Locks.lock_table)%type.

(** Lines 37-48: the bot has a player in this guild, in a voice channel
    different from the requester's. *)
Definition busy_elsewhere (c : client) (guildId : string)
    (userVoiceChannelId : option string) : bool :=
  match get_player c guildId with
  | Some p => truthy (voiceChannelId p) &&
              negb (str_eqb (voiceChannelId p) userVoiceChannelId)
  | None => false
  end.

(** Lines 52-53: the guild has an active assignment to another bot. *)
Definition assigned_elsewhere (assignment : option Store.assignment)
    (c : client) : bool :=
  match assignment with
  | Some a => Store.isActive a && negb (String.eqb (Store.assignedBotId a) (botId c))
  | None => false
  end.

(** Line 109: the guild has an active assignment to this bot. *)
Definition assigned_here (assignment : option Store.assignment)
    (c : client) : bool :=
  match assignment with
  | Some a => Store.isActive a && String.eqb (Store.assignedBotId a) (botId c)
  | None => false
  end.

(** Lines 122-128: the first bot of the cluster flagged [isMainBot]. *)
Definition find_main (bots : bot_cluster) : option client :=
  option_map snd (List.find (fun e => isMainBot (snd e)) bots).

(** Lines 149-157: the failover bots, sorted by id with [localeCompare]. *)
Definition failover_bots (bots : bot_cluster) : list (string * client) :=
  JsSort.sort_by (fun a b => localeCompare (fst a) (fst b))
    (List.filter (fun e => negb (isMainBot (snd e))) bots).

(** Lines 164-166: a failover bot is available for the guild when it has no
    player, a player without a voice channel, or one in the requester's
    voice channel. *)
Definition is_available (guildId : string) (userVoiceChannelId : option string)
    (c : client) : bool :=
  match get_player c guildId with
  | None => true
  | Some p => negb (truthy (voiceChannelId p)) ||
              str_eqb (voiceChannelId p) userVoiceChannelId
  end.

(** Lines 160-187: the first available failover bot in sorted order. *)
Definition first_available (bots : bot_cluster) (guildId : string)
    (userVoiceChannelId : option string) : option (string * client) :=
  List.find (fun f => is_available guildId userVoiceChannelId (snd f))
    (failover_bots bots).

(** Lines 117-190: the takeover step of a failover bot. *)
Definition takeover (bots : bot_cluster) (locks : Locks.lock_table)
    (c : client) (guildId : string) (userVoiceChannelId : option string)
    (now : Z) : result :=
  if negb (truthy userVoiceChannelId) then (false, locks) else
  match find_main bots with
  | None => (false, locks)
  | Some mainBotClient =>
      match lavalink mainBotClient with
      | None => (false, locks)
      | Some players =>
          match players !! guildId with
          | None => (false, locks)
          | Some mainBotPlayer =>
              if negb (truthy (voiceChannelId mainBotPlayer)) then (false, locks)
              else if str_eqb (voiceChannelId mainBotPlayer) userVoiceChannelId
              then (false, locks)
              else
                match first_available bots guildId userVoiceChannelId with
                | None => (false, locks)
                | Some failover =>
                    if String.eqb (botId (snd failover)) (botId c) then
                      Locks.acquireCommandLock locks guildId (botId c) now
                    else (false, locks)
                end
          end
      end
  end.

(** Lines 90-119: a failover bot after the lock probe. *)
Definition failover_after_probe (bots : bot_cluster)
    (assignment : option Store.assignment) (locks : Locks.lock_table)
    (c : client) (guildId : string) (userVoiceChannelId : option string)
    (now : Z) : result :=
  let existing :=
    if truthy userVoiceChannelId then
      match get_player c guildId with
      | Some p => if truthy (voiceChannelId p) then Some p else None
      | None => None
      end
    else None in
  match existing with
  | Some p =>
      if negb (str_eqb (voiceChannelId p) userVoiceChannelId) then (false, locks)
      else (true, snd (Locks.acquireCommandLock locks guildId (botId c) now))
  | None =>
      if assigned_here assignment c
      then (true, snd (Locks.acquireCommandLock locks guildId (botId c) now))
      else takeover bots locks c guildId userVoiceChannelId now
  end.

(** [shouldHandleCommand(client, guildId, isMusicCommand,
    userVoiceChannelId)] run to completion at clock reading [now], with
    [global.orchestrator] set up by [src/orchestrator.js] (so its lock
    functions are present), [assignment] the result of
    [GuildAssignment.findById(guildId)], and the lock table threaded
    through the calls. *)
Definition shouldHandleCommand (bots : bot_cluster)
    (assignment : option Store.assignment) (locks : Locks.lock_table)
    (c : client) (guildId : string) (isMusicCommand : bool)
    (userVoiceChannelId : option string) (now : Z) : result :=
  if isMainBot c then
    if isMusicCommand && truthy userVoiceChannelId &&
       busy_elsewhere c guildId userVoiceChannelId
    then (false, locks)
    else if isMusicCommand && assigned_elsewhere assignment c then (false, locks)
    else if isMusicCommand
    then (true, snd (Locks.acquireCommandLock locks guildId (botId c) now))
    else (true, locks)
  else if negb isMusicCommand then (false, locks)
  else
    let '(has, locks1) := Locks.hasCommandLock locks guildId (botId c) now in
    if negb has then
      let '(lockExists, locks2) :=
        Locks.acquireCommandLock locks1 guildId (botId c) now in
      if negb lockExists then (false, locks2)
      else failover_after_probe bots assignment
             (Locks.releaseCommandLock locks2 guildId (botId c))
             c guildId userVoiceChannelId now
    else failover_after_probe bots assignment locks1 c guildId userVoiceChannelId now.

End Routing.

(** The order of [localeCompare] on the identifiers used in examples:
    plain code-unit order, which ICU collation agrees with on ids such as
    ["bot-2"] and ["bot-3"] that differ in one digit. *)
Definition code_unit_compare (a b : string) : Z :=
  match String.compare a b with Lt => -1 | Eq => 0 | Gt => 1 end.

End Router.

(* ===================================================================== *)
(** ** Load balancer ([LoadBalancer] in [src/orchestrator.js],
       lines 715-1074) *)
(* ===================================================================== *)

Module Balancer.
Import Cluster.

(** The [status] enum of [src/schemas/BotStatus.js]. *)
Inductive bot_status := Available | InUse | Offline | Starting | Error.

(** [this.options] (constructor, lines 725-731). *)
Record lb_options := mk_options {
  strategy : string;
  maxPlayersPerBot : Z
}.

(** [maxPlayersPerBot: options.maxPlayersPerBot || 100] *)
Definition DEFAULT_MAX_PLAYERS : Z := 100.

(** [_updateBotStatus(client)] (lines 801-826): the status passed to
    [client.updateStatus], and the client with its cached [playerCount]
    refreshed from the live player count. *)
Definition _updateBotStatus (opts : lb_options) (c : client) : bot_status * client :=
  let count := players_size c in
  let c' := mk_client (botId c) (isMainBot c) (isReady c) count (lavalink c) (clientId c) in
  let status :=
    if negb (isReady c) then Offline
    else if Z.geb count (maxPlayersPerBot opts) then InUse
    else if Z.gtb count 0 then InUse
    else Available in
  (status, c').

(** [_heartbeat()] (lines 788-795): the statuses reported for every bot of
    the cluster, in iteration order. *)
Definition heartbeat_statuses (opts : lb_options) (bots : bot_cluster)
    : list (string * bot_status) :=
  map (fun e => (fst e, fst (_updateBotStatus opts (snd e)))) bots.

(** The comparator of [_selectByPriority] (lines 898-905): main bot first,
    then by cached [playerCount]. *)
Definition priority_cmp (a b : string * client) : Z :=
  if isMainBot (snd a) && negb (isMainBot (snd b)) then -1
  else if negb (isMainBot (snd a)) && isMainBot (snd b) then 1
  else playerCount (snd a) - playerCount (snd b).

(** [_selectByPriority()] (lines 894-923). *)
Definition _selectByPriority (opts : lb_options) (bots : bot_cluster)
    : option (string * client) :=
  let sortedBots := JsSort.sort_by priority_cmp
                      (List.filter (fun e => isReady (snd e)) bots) in
  match List.find (fun e => Z.ltb (players_size (snd e)) (maxPlayersPerBot opts))
          sortedBots with
  | Some e => Some e
  | None => head sortedBots
  end.

(** [_selectByRoundRobin()] (lines 929-938). *)
Definition _selectByRoundRobin (bots : bot_cluster) : option (string * client) :=
  head (JsSort.sort_by (fun a b => playerCount (snd a) - playerCount (snd b))
          (List.filter (fun e => isReady (snd e)) bots)).

(** [_selectBot()] (lines 880-888). *)
Definition _selectBot (opts : lb_options) (bots : bot_cluster)
    : option (string * client) :=
  if String.eqb (strategy opts) "priority" then _selectByPriority opts bots
  else if String.eqb (strategy opts) "roundRobin" then _selectByRoundRobin bots
  else _selectByPriority opts bots.

(** [assignBot(guildId)] (lines 833-874) at clock reading [now]: the
    returned [{ botId, client, assignment }] (or [null]), the assignment
    store afterwards, and whether [_selectBot] was called. *)
Definition assignBot (opts : lb_options) (bots : bot_cluster) (db : Store.store)
    (now : Z) (guildId : string)
    : option (string * client * Store.assignment) * Store.store * bool :=
  let existingAssignment := Store.findById db guildId in
  let sticky :=
    match existingAssignment with
    | Some a =>
        if Store.isActive a then
          match cluster_get bots (Store.assignedBotId a) with
          | Some existingClient =>
              if isReady existingClient then Some (a, existingClient) else None
          | None => None
          end
        else None
    | None => None
    end in
  match sticky with
  | Some (a, existingClient) =>
      let '(a', db') := Store.touch db now a in
      (Some (Store.assignedBotId a, existingClient, a'), db', false)
  | None =>
      match _selectBot opts bots with
      | None => (None, db, true)
      | Some (selId, selClient) =>
          let reason := match existingAssignment with
                        | Some _ => "failover" | None => "auto" end in
          let '(assignment, db') :=
            Store.getOrCreateAssignment db now guildId selId (clientId selClient) reason in
          (Some (selId, selClient, assignment), db', true)
      end
  end.

End Balancer.

(* ===================================================================== *)
(** ** Load balancer: assignment queries and admin operations *)
(* ===================================================================== *)

Module BalancerOps.
Import Cluster.

(** [releaseBot(guildId)] (lines 944-955). *)
Definition releaseBot (db : Store.store) (now : Z) (guildId : string) : Store.store :=
  match Store.findById db guildId with
  | Some a => snd (Store.deactivate db now a)
  | None => db
  end.

(** [isAssignedToBot(guildId, botId)] (lines 963-969). *)
Definition isAssignedToBot (db : Store.store) (guildId bid : string) : bool :=
  match Store.findById db guildId with
  | None => false
  | Some a => String.eqb (Store.assignedBotId a) bid
  end.

(** [getAssignedBot(guildId)] (lines 976-990). *)
Definition getAssignedBot (bots : bot_cluster) (db : Store.store) (guildId : string)
    : option (string * client * Store.assignment) :=
  match Store.findById db guildId with
  | None => None
  | Some a =>
      match cluster_get bots (Store.assignedBotId a) with
      | Some c => if isReady c then Some (Store.assignedBotId a, c, a) else None
      | None => None
      end
  end.

(** [forceAssign(guildId, targetBotId)] (lines 998-1017): the
    [{ success, message }] result and the store afterwards; [botName] is
    the clients' [botName] field. *)
Definition forceAssign (botName : client -> string) (bots : bot_cluster)
    (db : Store.store) (now : Z) (guildId targetBotId : string)
    : (bool * string) * Store.store :=
  match cluster_get bots targetBotId with
  | None => ((false, "Bot " ++ targetBotId ++ " not found"), db)
  | Some targetClient =>
      if negb (isReady targetClient)
      then ((false, "Bot " ++ targetBotId ++ " is not ready"), db)
      else
        let db' := snd (Store.reassignGuild db now guildId targetBotId
                          (clientId targetClient) "manual") in
        ((true, "Guild assigned to " ++ botName targetClient), db')
  end.

End BalancerOps.

(* ===================================================================== *)
(** ** Voice-state hooks ([src/events/Client/voiceStateUpdate.js]) *)
(* ===================================================================== *)

Module Voice.

(** The bot joined voice channel [channelId] (lines 94-101): the guild's
    assignment, whoever it names, is activated in that channel. *)
Definition on_bot_joined (db : Store.store) (now : Z) (guildId channelId : string)
    : Store.store :=
  match Store.findById db guildId with
  | Some a => snd (Store.activate db now a (Some channelId) (Store.textChannelId a))
  | None => db
  end.

(** [_deactivateAssignment(guildId)] (lines 202-211). *)
Definition _deactivateAssignment (db : Store.store) (now : Z) (guildId : string)
    : Store.store :=
  match Store.findById db guildId with
  | Some a => snd (Store.deactivate db now a)
  | None => db
  end.

End Voice.

(* ===================================================================== *)
(** ** Bot status documents ([src/schemas/BotStatus.js]) *)
(* ===================================================================== *)

Module StatusDoc.
Import Balancer.

(** The fields of a [BotStatus] document read or written by
    [incrementPlayerCount], [decrementPlayerCount] and
    [markStaleBotsOffline] (the schema's metric fields are not touched by
    them and are left out). [timestamps: true] adds [updatedAt]. *)
Record doc := mk_doc {
  _id : string;
  status : bot_status;
  playerCount : Z;
  lastHeartbeat : Z;
  updatedAt : Z
}.

Definition status_eqb (a b : bot_status) : bool :=
  match a, b with
  | Available, Available | InUse, InUse | Offline, Offline
  | Starting, Starting | Error, Error => true
  | _, _ => false
  end.

(** [incrementPlayerCount()] (lines 150-156), saved at clock [now]. *)
Definition incrementPlayerCount (now : Z) (d : doc) : doc :=
  let pc := playerCount d + 1 in
  let st := if status_eqb (status d) Available && Z.gtb pc 0 then InUse else status d in
  mk_doc (_id d) st pc (lastHeartbeat d) now.

(** [decrementPlayerCount()] (lines 158-164), saved at clock [now]. *)
Definition decrementPlayerCount (now : Z) (d : doc) : doc :=
  let pc := Z.max 0 (playerCount d - 1) in
  let st := if status_eqb (status d) InUse && Z.eqb pc 0 then Available else status d in
  mk_doc (_id d) st pc (lastHeartbeat d) now.

(** [markStaleBotsOffline(staleThreshold = 60000)] (lines 136-147) at
    clock [now]: [updateMany] with filter
    [{ lastHeartbeat: { $lt: staleTime }, status: { $nin: ['Offline',
    'Error'] } }] and update [{ $set: { status: 'Offline' } }], plus the
    [updatedAt] stamp of the schema's [timestamps] option. *)
Definition markStaleBotsOffline (db : gmap string doc) (now staleThreshold : Z)
    : gmap string doc :=
  let staleTime := now - staleThreshold in
  (fun d =>
     if Z.ltb (lastHeartbeat d) staleTime &&
        negb (status_eqb (status d) Offline || status_eqb (status d) Error)
     then mk_doc (_id d) Offline (playerCount d) (lastHeartbeat d) now
     else d) <$> db.

(** The agreement between [status] and [playerCount] that
    [incrementPlayerCount] and [decrementPlayerCount] maintain: the count
    is not negative, an [Available] bot has no player and an [InUse] bot
    has at least one. *)
Definition consistent (d : doc) : Prop :=
  0 <= playerCount d /\ (status d = Available -> playerCount d = 0) /\
  (status d = InUse -> 0 < playerCount d).

End StatusDoc.

(* ===================================================================== *)
(** ** Orders produced by the selectors' sorts *)
(* ===================================================================== *)

Module Orders.
Import Cluster.

(** No main bot comes after a bot that is not a main bot. *)
Fixpoint mains_first (l : list (string * client)) : Prop :=
  match l with
  | [] => True
  | x :: l' =>
      (isMainBot (snd x) = false -> Forall (fun e => isMainBot (snd e) = false) l') /\
      mains_first l'
  end.

(** The head of the list has the least [key]. *)
Definition head_least {A} (key : A -> Z) (l : list A) : Prop :=
  match l with
  | [] => True
  | h :: t => Forall (fun e => key h <= key e) t
  end.

End Orders.

(* ===================================================================== *)
(** ** A three-bot cluster (main bot ["bot-1"], failovers ["bot-2"],
       ["bot-3"]) *)
(* ===================================================================== *)

Module Scenario.
Import Cluster.

(** The main bot, playing in voice channel ["C1"] of ["guild1"]. *)
Definition bot1 : client :=
  mk_client "bot-1" true true 1 (Some {[ "guild1" := mk_player (Some "C1") ]}) "c-1".

(** Two idle failover bots. *)
Definition bot2 : client := mk_client "bot-2" false true 0 (Some ∅) "c-2".
Definition bot3 : client := mk_client "bot-3" false true 0 (Some ∅) "c-3".

Definition cluster : bot_cluster := [("bot-1", bot1); ("bot-2", bot2); ("bot-3", bot3)].

(** [n] players in voice channel [vc], one per guild key. *)
Definition players_in (vc : string) (n : nat) : gmap string player :=
  list_to_map (map (fun i => (String (Ascii.ascii_of_nat i) EmptyString,
                              mk_player (Some vc))) (seq 0 n)).

(** A cluster in which every ready bot is at or above the default capacity
    of 100 players: the main bot with 101 players, a failover with 100
    (cached counts as written by the last heartbeat). *)
Definition busy_main : client :=
  mk_client "bot-1" true true 101 (Some (players_in "C1" 101)) "c-1".
Definition busy_failover : client :=
  mk_client "bot-2" false true 100 (Some (players_in "C2" 100)) "c-2".
Definition full_cluster : bot_cluster :=
  [("bot-1", busy_main); ("bot-2", busy_failover)].

(** Assignments of ["guild1"]: active on ["bot-2"]; inactive on ["bot-3"];
    active on ["bot-2"] but idle since time 0. *)
Definition asg_bot2 : Store.assignment :=
  Store.mk_assignment "guild1" "bot-2" "c-2" (Some "C2") None true 0 0 "failover" None 0 0.
Definition asg_bot3_ended : Store.assignment :=
  Store.mk_assignment "guild1" "bot-3" "c-3" None None false 0 0 "failover" None 0 0.

Definition asg_idle : Store.assignment :=
  Store.mk_assignment "guild1" "bot-2" "c-2" (Some "C2") None true 0 0 "auto" None 0 0.

End Scenario.

(* ===================================================================== *)
(** * Proofs *)
(* ===================================================================== *)

(* --------------------------------------------------------------------- *)
(** ** Command locks *)
(* --------------------------------------------------------------------- *)

Section LockProofs.
Import Locks.

(** While an entry stays unexpired, every [acquireCommandLock] answers
    "is the caller the holder?" and leaves the table unchanged. *)
Lemma acquire_seq_held (m : lock_table) (k : string) (e : lock_entry)
    (calls : list (string * Z)) :
  m !! k = Some e ->
  Forall (fun c => snd c - timestamp e <= LOCK_TIMEOUT) calls ->
  acquire_seq m k calls = (map (fun c => String.eqb (botId e) (fst c)) calls, m).
Proof.
  intros Hk Hall. induction Hall as [|[b t] rest Ht Hrest IH]; [reflexivity|].
  simpl in *. unfold acquireCommandLock. rewrite Hk.
  replace (Z.gtb (t - timestamp e) LOCK_TIMEOUT) with false by lia.
  destruct (String.eqb (botId e) b); simpl; rewrite IH; reflexivity.
Qed.

Lemma count_true_cons (b : bool) (l : list bool) :
  count_true (b :: l) = ((if b then 1 else 0) + count_true l)%nat.
Proof. unfold count_true. destruct b; reflexivity. Qed.

Lemma count_true_eqb_nodup (q : string) (l : list (string * Z)) :
  NoDup (map fst l) ->
  count_true (map (fun c => String.eqb q (fst c)) l) =
    (if bool_decide (q ∈ map fst l) then 1 else 0)%nat.
Proof.
  induction l as [|[a t] l IH]; intros Hnd; [reflexivity|].
  cbn [map fst] in *. apply NoDup_cons in Hnd as [Hnotin Hnd].
  rewrite count_true_cons, IH by exact Hnd.
  destruct (String.eqb_spec q a) as [->|Hne].
  - rewrite bool_decide_eq_false_2 by exact Hnotin.
    rewrite bool_decide_eq_true_2 by (left; reflexivity). reflexivity.
  - destruct (bool_decide_reflect (q ∈ map fst l)) as [Hin|Hin];
      destruct (bool_decide_reflect (q ∈ a :: map fst l)) as [Hin'|Hin'];
      rewrite ?elem_of_cons in Hin'; try reflexivity; tauto.
Qed.

(** Claim C1 (counterexample): N = 2 acquire calls with distinct peers
    ["A"] and ["B"], within the timeout window, on a table where peer ["X"]
    holds an unexpired lock on ["guild1"]: none of them returns [true], so
    "exactly one succeeds" fails when the start state is already held. *)
Lemma acquire_mutual_exclusion_counterexample :
  let m : lock_table := {[ "guild1" := mk_lock "X" 0 ]} in
  let calls := [("A", 1); ("B", 2)] in
  NoDup (map fst calls) /\
  fst (acquire_seq m "guild1" calls) = [false; false] /\
  count_true (fst (acquire_seq m "guild1" calls)) <> 1%nat.
Proof.
  simpl. split; [|split].
  - repeat constructor; set_solver.
  - vm_compute. reflexivity.
  - vm_compute. discriminate.
Qed.

(** Claim C1 (amended): for calls [(p, t) :: rest] on guild [k] with
    pairwise-distinct peer ids, every later call within [LOCK_TIMEOUT] of
    the first, and an initial entry for [k] (if any) either already expired
    at the first call or unexpired at every call: at most one call returns
    [true]; exactly one does unless the key is held at the start by a peer
    that is not among the callers, in which case none does. *)
Theorem acquire_mutual_exclusion (m : lock_table) (k p : string) (t : Z)
    (rest : list (string * Z)) :
  NoDup (map fst ((p, t) :: rest)) ->
  Forall (fun c => snd c - t <= LOCK_TIMEOUT) rest ->
  (forall e, m !! k = Some e ->
     t - timestamp e > LOCK_TIMEOUT \/
     Forall (fun c => snd c - timestamp e <= LOCK_TIMEOUT) ((p, t) :: rest)) ->
  (count_true (fst (acquire_seq m k ((p, t) :: rest))) <= 1)%nat /\
  count_true (fst (acquire_seq m k ((p, t) :: rest))) =
    match lock_holder m k t with
    | Some q => if bool_decide (q ∈ map fst ((p, t) :: rest)) then 1 else 0
    | None => 1
    end%nat.
Proof.
  intros Hnd Hwin Hinit.
  assert (Hfresh : lock_holder m k t = None ->
            fst (acquire_seq m k ((p, t) :: rest)) =
            true :: map (fun c => String.eqb p (fst c)) rest).
  { intros Hnone. cbn [acquire_seq]. unfold acquireCommandLock.
    unfold lock_holder in Hnone.
    destruct (m !! k) as [e|] eqn:Hk.
    - destruct (Z.gtb (t - timestamp e) LOCK_TIMEOUT); [|discriminate].
      rewrite (acquire_seq_held _ k (mk_lock p t)) by (simpl_map; auto).
      reflexivity.
    - rewrite (acquire_seq_held _ k (mk_lock p t)) by (simpl_map; auto).
      reflexivity. }
  assert (Hp : p ∉ map fst rest).
  { cbn [map fst] in Hnd. apply NoDup_cons in Hnd. tauto. }
  assert (Hnd' : NoDup (map fst rest)).
  { cbn [map fst] in Hnd. apply NoDup_cons in Hnd. tauto. }
  destruct (lock_holder m k t) as [q|] eqn:Hh.
  - unfold lock_holder in Hh. destruct (m !! k) as [e|] eqn:Hk; [|discriminate].
    destruct (Z.gtb (t - timestamp e) LOCK_TIMEOUT) eqn:Hgt; [discriminate|].
    injection Hh as <-.
    destruct (Hinit e eq_refl) as [Hexp|Hall]; [lia|].
    rewrite (acquire_seq_held m k e) by assumption. cbn [fst].
    rewrite count_true_eqb_nodup by exact Hnd.
    split; [destruct (bool_decide _); lia | reflexivity].
  - rewrite Hfresh by reflexivity. rewrite count_true_cons.
    rewrite count_true_eqb_nodup by exact Hnd'.
    rewrite bool_decide_eq_false_2 by exact Hp. lia.
Qed.

(** Witness for C1: two distinct peers acquiring a free lock 5 ms apart. *)
Lemma acquire_mutual_exclusion_witness :
  (count_true (fst (acquire_seq ∅ "guild1" [("bot-1", 0%Z); ("bot-2", 5%Z)])) <= 1)%nat /\
  count_true (fst (acquire_seq ∅ "guild1" [("bot-1", 0%Z); ("bot-2", 5%Z)])) = 1%nat.
Proof.
  pose proof (acquire_mutual_exclusion ∅ "guild1" "bot-1" 0%Z [("bot-2", 5%Z)]) as H.
  destruct H as [H1 H2].
  - apply (bool_decide_unpack _). vm_compute. reflexivity.
  - constructor; [cbn; unfold LOCK_TIMEOUT; lia | constructor].
  - intros e He. vm_compute in He. discriminate.
  - split; [exact H1|]. rewrite H2. vm_compute. reflexivity.
Defined.

(** Claim C2: the per-call contract of [acquireCommandLock]: an absent
    entry is created for the caller; an expired entry is replaced by one
    owned by the caller; an unexpired entry of another peer makes the call
    fail with the table unchanged; an unexpired entry of the caller makes
    it succeed with the table (and the entry's timestamp) unchanged. *)
Theorem acquire_contract (m : lock_table) (k p : string) (now : Z) :
  (m !! k = None ->
     acquireCommandLock m k p now = (true, <[k := mk_lock p now]> m)) /\
  (forall e, m !! k = Some e -> now - timestamp e > LOCK_TIMEOUT ->
     acquireCommandLock m k p now = (true, <[k := mk_lock p now]> m)) /\
  (forall e, m !! k = Some e -> now - timestamp e <= LOCK_TIMEOUT ->
     botId e <> p -> acquireCommandLock m k p now = (false, m)) /\
  (forall e, m !! k = Some e -> now - timestamp e <= LOCK_TIMEOUT ->
     botId e = p -> acquireCommandLock m k p now = (true, m)).
Proof.
  unfold acquireCommandLock. split; [|split; [|split]].
  - intros ->. reflexivity.
  - intros e -> Hexp.
    replace (Z.gtb (now - timestamp e) LOCK_TIMEOUT) with true by lia.
    rewrite insert_delete_eq. reflexivity.
  - intros e -> Hfresh Hne.
    replace (Z.gtb (now - timestamp e) LOCK_TIMEOUT) with false by lia.
    apply String.eqb_neq in Hne. rewrite Hne. reflexivity.
  - intros e -> Hfresh <-.
    replace (Z.gtb (now - timestamp e) LOCK_TIMEOUT) with false by lia.
    rewrite String.eqb_refl. reflexivity.
Qed.

(** Claim C7: [releaseCommandLock] removes the entry exactly when the
    caller owns it and is a no-op otherwise; in the scenario "A acquires,
    B is refused, A's lock expires, B acquires, A releases", B's lock stays
    in place. *)
Theorem release_owner_gated (m : lock_table) (k p : string) :
  (forall e, m !! k = Some e -> botId e = p ->
     releaseCommandLock m k p = delete k m) /\
  ((forall e, m !! k = Some e -> botId e <> p) ->
     releaseCommandLock m k p = m) /\
  (forall t0 t1 t2 : Z, m !! "guild1" = None ->
     t1 - t0 <= LOCK_TIMEOUT -> t2 - t0 > LOCK_TIMEOUT ->
     let '(rA, m1) := acquireCommandLock m "guild1" "A" t0 in
     let '(rB, m2) := acquireCommandLock m1 "guild1" "B" t1 in
     let '(rB', m3) := acquireCommandLock m2 "guild1" "B" t2 in
     let m4 := releaseCommandLock m3 "guild1" "A" in
     rA = true /\ rB = false /\ rB' = true /\
     m4 !! "guild1" = Some (mk_lock "B" t2)).
Proof.
  unfold releaseCommandLock. split; [|split].
  - intros e -> <-. rewrite String.eqb_refl. reflexivity.
  - intros Hne. destruct (m !! k) as [e|] eqn:Hk; [|reflexivity].
    specialize (Hne e eq_refl). apply String.eqb_neq in Hne. rewrite Hne.
    reflexivity.
  - intros t0 t1 t2 Hnone H1 H2. unfold acquireCommandLock.
    rewrite Hnone. simpl_map. cbn [timestamp botId].
    replace (Z.gtb (t1 - t0) LOCK_TIMEOUT) with false by lia.
    cbn. simpl_map. cbn [timestamp botId].
    replace (Z.gtb (t2 - t0) LOCK_TIMEOUT) with true by lia.
    cbn. repeat split; try reflexivity. rewrite !lookup_insert_eq. cbn. apply lookup_insert_eq.
Qed.

End LockProofs.

(* --------------------------------------------------------------------- *)
(** ** Command routing *)
(* --------------------------------------------------------------------- *)

Section RouterProofs.
Import Cluster Router.

(** Acquiring a lock that is free or already held by the caller succeeds
    and leaves the caller holding it. *)
Lemma acquire_free_or_own (L : Locks.lock_table) (g b : string) (now : Z) :
  Locks.lock_holder L g now = None \/ Locks.lock_holder L g now = Some b ->
  fst (Locks.acquireCommandLock L g b now) = true /\
  Locks.lock_holder (snd (Locks.acquireCommandLock L g b now)) g now = Some b.
Proof.
  unfold Locks.lock_holder, Locks.acquireCommandLock.
  assert (Hnew : forall m : Locks.lock_table,
            match (<[g := Locks.mk_lock b now]> m) !! g with
            | Some e => if Z.gtb (now - Locks.timestamp e) Locks.LOCK_TIMEOUT
                        then None else Some (Locks.botId e)
            | None => None end = Some b).
  { intros m. rewrite lookup_insert_eq. cbn.
    replace (Z.gtb (now - now) Locks.LOCK_TIMEOUT) with false
      by (unfold Locks.LOCK_TIMEOUT; lia). reflexivity. }
  destruct (L !! g) as [e|] eqn:Hg; intros Hh.
  - destruct (Z.gtb (now - Locks.timestamp e) Locks.LOCK_TIMEOUT) eqn:Hexp.
    + split; [reflexivity | apply Hnew].
    + destruct Hh as [Hh|Hh]; [discriminate|]. injection Hh as Hb.
      rewrite Hb, String.eqb_refl. cbn. rewrite Hg, Hexp, Hb. split; reflexivity.
  - split; [reflexivity | apply Hnew].
Qed.

(** The lock probe of a failover bot (lines 76-88): when no other peer
    holds an unexpired lock on the guild, the probe lets the bot through
    with a table in which the guild is still free or held by the bot. *)
Lemma failover_probe (lc : string -> string -> Z) (bots : bot_cluster)
    (assignment : option Store.assignment) (locks : Locks.lock_table)
    (c : client) (g : string) (uvc : option string) (now : Z) :
  isMainBot c = false ->
  Locks.lock_holder locks g now = None \/
  Locks.lock_holder locks g now = Some (botId c) ->
  exists L, (Locks.lock_holder L g now = None \/
             Locks.lock_holder L g now = Some (botId c)) /\
    shouldHandleCommand lc bots assignment locks c g true uvc now =
    failover_after_probe lc bots assignment L c g uvc now.
Proof.
  intros Hmain Hh. unfold shouldHandleCommand. rewrite Hmain. cbn [negb].
  unfold Locks.hasCommandLock.
  unfold Locks.lock_holder in Hh.
  destruct (locks !! g) as [e|] eqn:Hg.
  - destruct (Z.gtb (now - Locks.timestamp e) Locks.LOCK_TIMEOUT) eqn:Hexp.
    + cbn [negb]. unfold Locks.acquireCommandLock. rewrite lookup_delete_eq.
      cbn [negb]. exists (delete g locks). split.
      * left. unfold Locks.lock_holder. rewrite lookup_delete_eq. reflexivity.
      * f_equal. unfold Locks.releaseCommandLock. rewrite lookup_insert_eq.
        cbn. rewrite String.eqb_refl. rewrite delete_insert_eq, delete_delete_eq.
        reflexivity.
    + destruct Hh as [Hh|Hh]; [discriminate|]. injection Hh as Hb.
      rewrite Hb, String.eqb_refl. cbn [negb].
      exists locks. split; [|reflexivity].
      right. unfold Locks.lock_holder. rewrite Hg, Hexp, Hb. reflexivity.
  - cbn [negb]. unfold Locks.acquireCommandLock. rewrite Hg. cbn [negb].
    exists (delete g locks). split.
    + left. unfold Locks.lock_holder. rewrite lookup_delete_eq. reflexivity.
    + f_equal. unfold Locks.releaseCommandLock. rewrite lookup_insert_eq.
      cbn. rewrite String.eqb_refl. rewrite delete_insert_eq. reflexivity.
Qed.

(** Claim C3: a failover bot that reaches the takeover step (requester in
    voice channel [u], main bot playing in another channel [v], no other
    peer holding an unexpired lock, no player of its own in a voice channel,
    no active assignment to itself) handles the command exactly when it is
    the first available failover bot in [localeCompare] order of ids; its
    lock acquisition then succeeds and it holds the guild's lock. *)
Theorem failover_determinism (lc : string -> string -> Z) (bots : bot_cluster)
    (assignment : option Store.assignment) (locks : Locks.lock_table)
    (c mainc : client) (players : gmap string player) (mp : player)
    (g u v : string) (now : Z) :
  isMainBot c = false ->
  u <> "" ->
  find_main bots = Some mainc ->
  lavalink mainc = Some players ->
  players !! g = Some mp ->
  Cluster.voiceChannelId mp = Some v ->
  v <> "" ->
  v <> u ->
  Locks.lock_holder locks g now = None \/
  Locks.lock_holder locks g now = Some (botId c) ->
  (forall p, get_player c g = Some p -> truthy (Cluster.voiceChannelId p) = false) ->
  assigned_here assignment c = false ->
  (fst (shouldHandleCommand lc bots assignment locks c g true (Some u) now) = true <->
   option_map (fun f => botId (snd f)) (first_available lc bots g (Some u)) =
     Some (botId c)) /\
  (fst (shouldHandleCommand lc bots assignment locks c g true (Some u) now) = true ->
   Locks.lock_holder
     (snd (shouldHandleCommand lc bots assignment locks c g true (Some u) now))
     g now = Some (botId c)).
Proof.
  intros Hmain Hu Hfind Hlav Hpl Hvc Hv Hvu Hlock Hown Hasg.
  destruct (failover_probe lc bots assignment locks c g (Some u) now Hmain Hlock)
    as [L [HL ->]].
  unfold failover_after_probe.
  assert (Htu : truthy (Some u) = true).
  { cbn. apply String.eqb_neq in Hu. rewrite Hu. reflexivity. }
  rewrite Htu.
  replace (match get_player c g with
           | Some p => if truthy (Cluster.voiceChannelId p) then Some p else None
           | None => None end) with (@None player).
  2:{ destruct (get_player c g) as [p|] eqn:Hp; [|reflexivity].
      rewrite (Hown p eq_refl). reflexivity. }
  rewrite Hasg. unfold takeover. rewrite Htu. cbn [negb].
  rewrite Hfind, Hlav, Hpl, Hvc.
  assert (Htv : truthy (Some v) = true).
  { cbn. apply String.eqb_neq in Hv. rewrite Hv. reflexivity. }
  rewrite Htv. cbn [negb str_eqb].
  apply String.eqb_neq in Hvu. rewrite Hvu.
  destruct (first_available lc bots g (Some u)) as [[k f]|]; cbn [option_map snd fst].
  - destruct (String.eqb_spec (botId f) (botId c)) as [Heq|Hne].
    + rewrite Heq. destruct (acquire_free_or_own L g (botId c) now HL) as [H1 H2].
      split; [split; [reflexivity|intros; exact H1] | intros; exact H2].
    + split; [split; [discriminate | intros H; injection H as H; contradiction]|].
      discriminate.
  - split; [split; discriminate | discriminate].
Qed.

(** Witness for C3: main bot busy in ["C1"], requester in ["C2"], idle
    failovers ["bot-2"] and ["bot-3"]: evaluated independently, the main
    bot and ["bot-3"] defer and ["bot-2"] handles. *)
Lemma failover_determinism_witness :
  let sh c := fst (shouldHandleCommand code_unit_compare Scenario.cluster None ∅
                     c "guild1" true (Some "C2") 1000) in
  sh Scenario.bot1 = false /\ sh Scenario.bot2 = true /\ sh Scenario.bot3 = false.
Proof.
  cbn zeta. split; [vm_compute; reflexivity|split].
  - pose proof (failover_determinism code_unit_compare Scenario.cluster None ∅
             Scenario.bot2 Scenario.bot1 {[ "guild1" := mk_player (Some "C1") ]}
             (mk_player (Some "C1")) "guild1" "C2" "C1" 1000
             ltac:(vm_compute; reflexivity) ltac:(discriminate)
             ltac:(vm_compute; reflexivity) ltac:(vm_compute; reflexivity)
             ltac:(vm_compute; reflexivity) ltac:(vm_compute; reflexivity)
             ltac:(discriminate) ltac:(discriminate)
             ltac:(left; vm_compute; reflexivity)
             ltac:(intros p Hp; vm_compute in Hp; discriminate)
             ltac:(vm_compute; reflexivity)) as [[_ Hfirst] _].
    apply Hfirst. vm_compute. reflexivity.
  - pose proof (failover_determinism code_unit_compare Scenario.cluster None ∅
             Scenario.bot3 Scenario.bot1 {[ "guild1" := mk_player (Some "C1") ]}
             (mk_player (Some "C1")) "guild1" "C2" "C1" 1000
             ltac:(vm_compute; reflexivity) ltac:(discriminate)
             ltac:(vm_compute; reflexivity) ltac:(vm_compute; reflexivity)
             ltac:(vm_compute; reflexivity) ltac:(vm_compute; reflexivity)
             ltac:(discriminate) ltac:(discriminate)
             ltac:(left; vm_compute; reflexivity)
             ltac:(intros p Hp; vm_compute in Hp; discriminate)
             ltac:(vm_compute; reflexivity)) as [[Honly _] _].
    destruct (fst _) eqn:Hr; [|reflexivity].
    specialize (Honly eq_refl). vm_compute in Honly. discriminate.
Defined.

(** Claim C9: the main bot's decision does not depend on the lock table
    (nor on the clock reading the lock code uses): two runs on any two lock
    tables return the same boolean; once past its two deferral checks it
    returns [true] whatever its own [acquireCommandLock] call returns. *)
Theorem primary_ignores_lock_table (lc : string -> string -> Z)
    (bots : bot_cluster) (assignment : option Store.assignment)
    (l1 l2 : Locks.lock_table) (c : client) (g : string) (isMusic : bool)
    (uvc : option string) (n1 n2 : Z) :
  isMainBot c = true ->
  fst (shouldHandleCommand lc bots assignment l1 c g isMusic uvc n1) =
  fst (shouldHandleCommand lc bots assignment l2 c g isMusic uvc n2) /\
  (isMusic && truthy uvc && busy_elsewhere c g uvc = false ->
   isMusic && assigned_elsewhere assignment c = false ->
   fst (shouldHandleCommand lc bots assignment l1 c g isMusic uvc n1) = true).
Proof.
  intros Hmain. unfold shouldHandleCommand. rewrite Hmain.
  split.
  - destruct (isMusic && truthy uvc && busy_elsewhere c g uvc); [reflexivity|].
    destruct (isMusic && assigned_elsewhere assignment c); [reflexivity|].
    destruct isMusic; reflexivity.
  - intros H1 H2. rewrite H1, H2. destruct isMusic; reflexivity.
Qed.

(** Witness for C9: ["bot-2"] holds a fresh lock on ["guild1"]; the main
    bot's own acquisition fails, yet it handles a command from its own
    voice channel exactly as it does with an empty lock table. *)
Lemma primary_ignores_lock_table_witness :
  let l2 : Locks.lock_table := {[ "guild1" := Locks.mk_lock "bot-2" 900 ]} in
  fst (Locks.acquireCommandLock l2 "guild1" "bot-1" 1000) = false /\
  fst (shouldHandleCommand code_unit_compare Scenario.cluster None l2
         Scenario.bot1 "guild1" true (Some "C1") 1000) =
  fst (shouldHandleCommand code_unit_compare Scenario.cluster None ∅
         Scenario.bot1 "guild1" true (Some "C1") 1000) /\
  fst (shouldHandleCommand code_unit_compare Scenario.cluster None l2
         Scenario.bot1 "guild1" true (Some "C1") 1000) = true.
Proof.
  cbn zeta.
  destruct (primary_ignores_lock_table code_unit_compare Scenario.cluster None
              {[ "guild1" := Locks.mk_lock "bot-2" 900 ]} ∅ Scenario.bot1
              "guild1" true (Some "C1") 1000 1000 ltac:(vm_compute; reflexivity))
    as [Heq Htrue].
  split; [vm_compute; reflexivity|split; [exact Heq|]].
  apply Htrue; vm_compute; reflexivity.
Defined.

End RouterProofs.

(* --------------------------------------------------------------------- *)
(** ** Load balancer *)
(* --------------------------------------------------------------------- *)

Section BalancerProofs.
Import Cluster Balancer.

(** Claim C6 (counterexample): a ready bot with one player, under the
    default capacity, is reported [InUse], not [Available]; a bot that is
    not ready is reported [Offline] even at capacity. *)
Lemma heartbeat_status_counterexample :
  let opts := mk_options "priority" DEFAULT_MAX_PLAYERS in
  let one := mk_client "bot-2" false true 0
               (Some {[ "guild1" := mk_player (Some "C1") ]}) "c-2" in
  let down := mk_client "bot-3" false false 0
               (Some (Scenario.players_in "C1" 100)) "c-3" in
  (isReady one = true /\ 0 < players_size one < maxPlayersPerBot opts /\
   fst (_updateBotStatus opts one) = InUse) /\
  (players_size down >= maxPlayersPerBot opts /\
   fst (_updateBotStatus opts down) = Offline).
Proof. vm_compute. repeat split; discriminate. Qed.

(** Claim C6 (amended): on a heartbeat every bot of the cluster gets a
    status: [Offline] when it is not ready (whatever its player count);
    when ready, [InUse] as soon as it has at least one player or is at or
    above capacity, and [Available] only with no player (and a positive
    capacity). The cached [playerCount] is refreshed to the live count. *)
Theorem heartbeat_status (opts : lb_options) (bots : bot_cluster) (i : nat)
    (id : string) (c : client) :
  bots !! i = Some (id, c) ->
  exists s, heartbeat_statuses opts bots !! i = Some (id, s) /\
    s = fst (_updateBotStatus opts c) /\
    (isReady c = false -> s = Offline) /\
    (isReady c = true -> players_size c >= maxPlayersPerBot opts -> s = InUse) /\
    (isReady c = true -> players_size c > 0 -> s = InUse) /\
    (isReady c = true -> players_size c = 0 -> 0 < maxPlayersPerBot opts ->
       s = Available) /\
    playerCount (snd (_updateBotStatus opts c)) = players_size c.
Proof.
  intros Hi. exists (fst (_updateBotStatus opts c)).
  unfold heartbeat_statuses. rewrite list_lookup_fmap, Hi. cbn [fmap option_fmap option_map fst snd].
  split; [reflexivity|split; [reflexivity|]].
  unfold _updateBotStatus. cbn [fst snd playerCount].
  repeat split; intros Hr; rewrite ?Hr; cbn [negb]; try reflexivity; intros Hc.
  - replace (Z.geb (players_size c) (maxPlayersPerBot opts)) with true by lia.
    reflexivity.
  - destruct (Z.geb (players_size c) (maxPlayersPerBot opts)); [reflexivity|].
    replace (Z.gtb (players_size c) 0) with true by lia. reflexivity.
  - intros Hm.
    replace (Z.geb (players_size c) (maxPlayersPerBot opts)) with false by lia.
    replace (Z.gtb (players_size c) 0) with false by lia. reflexivity.
Qed.

(** Witness for C6: the heartbeat of the three-bot cluster. *)
Lemma heartbeat_status_witness :
  exists s, heartbeat_statuses (mk_options "priority" DEFAULT_MAX_PLAYERS)
              Scenario.cluster !! 0%nat = Some ("bot-1", s) /\ s = InUse.
Proof.
  destruct (heartbeat_status (mk_options "priority" DEFAULT_MAX_PLAYERS)
              Scenario.cluster 0 "bot-1" Scenario.bot1 ltac:(reflexivity))
    as [s [Hs [_ [_ [_ [Hpos _]]]]]].
  exists s. split; [exact Hs|]. apply Hpos; vm_compute; reflexivity.
Defined.

(** Claim C4 (failing input): every ready bot is at or above the default
    capacity; [_selectByPriority] returns the main bot with 101 players,
    not the least-loaded bot (["bot-2"], 100 players). *)
Lemma select_priority_full_cluster :
  players_size Scenario.busy_main = 101 /\
  players_size Scenario.busy_failover = 100 /\
  _selectByPriority (mk_options "priority" DEFAULT_MAX_PLAYERS) Scenario.full_cluster =
    Some ("bot-1", Scenario.busy_main).
Proof. vm_compute. repeat split. Qed.

End BalancerProofs.

(* --------------------------------------------------------------------- *)
(** ** Assignment routing *)
(* --------------------------------------------------------------------- *)

Section AssignProofs.
Import Cluster Balancer.

(** Claim C5: an active assignment whose bot is in the cluster and ready is
    returned as is (sticky routing): [touch] refreshes its [lastActivity]
    in the store, and [_selectBot] is not called; [_selectBot] is called
    whenever there is no such assignment. *)
Theorem sticky_routing (opts : lb_options) (bots : bot_cluster)
    (db : Store.store) (now : Z) (g : string) :
  (forall a cl, Store.wf db -> Store.findById db g = Some a ->
     Store.isActive a = true ->
     cluster_get bots (Store.assignedBotId a) = Some cl -> isReady cl = true ->
     exists a',
       assignBot opts bots db now g =
         (Some (Store.assignedBotId a, cl, a'), <[g := a']> db, false) /\
       Store.lastActivity a' = now /\ Store.assignedBotId a' = Store.assignedBotId a /\
       Store.isActive a' = true) /\
  (snd (assignBot opts bots db now g) = false ->
     exists a cl, Store.findById db g = Some a /\ Store.isActive a = true /\
       cluster_get bots (Store.assignedBotId a) = Some cl /\ isReady cl = true).
Proof.
  split.
  - intros a cl Hwf Hfind Hact Hcl Hready.
    exists (fst (Store.touch db now a)). unfold assignBot.
    rewrite Hfind, Hact, Hcl, Hready. unfold Store.touch. cbn.
    rewrite (Hwf g a Hfind). repeat split; cbn; auto.
  - unfold assignBot.
    destruct (Store.findById db g) as [a|] eqn:Hfind.
    + destruct (Store.isActive a) eqn:Hact.
      * destruct (cluster_get bots (Store.assignedBotId a)) as [cl|] eqn:Hcl.
        -- destruct (isReady cl) eqn:Hready.
           ++ intros _. exists a, cl. repeat split; assumption.
           ++ destruct (_selectBot opts bots) as [[b sc]|]; [|discriminate].
              destruct (Store.getOrCreateAssignment _ _ _ _ _ _). discriminate.
        -- destruct (_selectBot opts bots) as [[b sc]|]; [|discriminate].
           destruct (Store.getOrCreateAssignment _ _ _ _ _ _). discriminate.
      * destruct (_selectBot opts bots) as [[b sc]|]; [|discriminate].
        destruct (Store.getOrCreateAssignment _ _ _ _ _ _). discriminate.
    + destruct (_selectBot opts bots) as [[b sc]|]; [|discriminate].
      destruct (Store.getOrCreateAssignment _ _ _ _ _ _). discriminate.
Qed.

End AssignProofs.

(** Witness for C5: ["guild1"] is actively assigned to the ready ["bot-2"]. *)
Lemma sticky_routing_witness :
  exists a',
    Balancer.assignBot (Balancer.mk_options "priority" Balancer.DEFAULT_MAX_PLAYERS)
      Scenario.cluster {[ "guild1" := Scenario.asg_bot2 ]} 5000 "guild1" =
      (Some ("bot-2", Scenario.bot2, a'), <[ "guild1" := a' ]> {[ "guild1" := Scenario.asg_bot2 ]}, false) /\
    Store.lastActivity a' = 5000.
Proof.
  destruct (sticky_routing (Balancer.mk_options "priority" Balancer.DEFAULT_MAX_PLAYERS)
              Scenario.cluster {[ "guild1" := Scenario.asg_bot2 ]} 5000 "guild1")
    as [Hsticky _].
  destruct (Hsticky Scenario.asg_bot2 Scenario.bot2
              ltac:(intros k a Hk; apply lookup_singleton_Some in Hk as [<- <-]; reflexivity)
              ltac:(vm_compute; reflexivity) ltac:(vm_compute; reflexivity)
              ltac:(vm_compute; reflexivity) ltac:(vm_compute; reflexivity))
    as [a' [Hres [Hlast _]]].
  exists a'. split; [exact Hres | exact Hlast].
Defined.

Section AssignProofs2.
Import Cluster Balancer.

(** Claim C10: when ["guild1"] has a stored assignment to bot [A] that is
    inactive (or whose bot is absent or not ready) and [_selectBot] picks
    another bot [B], [assignBot] returns [B] together with the stored
    document unchanged, still naming [A]; the store is left as it was. *)
Theorem assignment_owner_mismatch (opts : lb_options) (bots : bot_cluster)
    (db : Store.store) (now : Z) (g b : string) (a : Store.assignment) (cl : client) :
  Store.findById db g = Some a ->
  (Store.isActive a = false \/
   forall c, cluster_get bots (Store.assignedBotId a) = Some c -> isReady c = false) ->
  _selectBot opts bots = Some (b, cl) ->
  b <> Store.assignedBotId a ->
  assignBot opts bots db now g = (Some (b, cl, a), db, true).
Proof.
  intros Hfind Hstale Hsel Hne. unfold assignBot.
  replace (match Store.findById db g with
           | Some a0 =>
               if Store.isActive a0 then
                 match cluster_get bots (Store.assignedBotId a0) with
                 | Some existingClient =>
                     if isReady existingClient then Some (a0, existingClient) else None
                 | None => None
                 end
               else None
           | None => None end) with (@None (Store.assignment * client)).
  2:{ rewrite Hfind. destruct Hstale as [Hin|Hnr]; [rewrite Hin; reflexivity|].
      destruct (Store.isActive a); [|reflexivity].
      destruct (cluster_get bots (Store.assignedBotId a)) as [c|] eqn:Hc; [|reflexivity].
      rewrite (Hnr c eq_refl). reflexivity. }
  rewrite Hsel. unfold Store.getOrCreateAssignment. rewrite Hfind. reflexivity.
Qed.

(** Witness for C10: ["guild1"] was last assigned to ["bot-3"] (inactive);
    the priority selector picks the main bot ["bot-1"]. *)
Lemma assignment_owner_mismatch_witness :
  Balancer.assignBot (mk_options "priority" DEFAULT_MAX_PLAYERS) Scenario.cluster
    {[ "guild1" := Scenario.asg_bot3_ended ]} 5000 "guild1" =
    (Some ("bot-1", Scenario.bot1, Scenario.asg_bot3_ended),
     {[ "guild1" := Scenario.asg_bot3_ended ]}, true) /\
  Store.assignedBotId Scenario.asg_bot3_ended = "bot-3".
Proof.
  split; [|reflexivity].
  apply (assignment_owner_mismatch (mk_options "priority" DEFAULT_MAX_PLAYERS)
           Scenario.cluster {[ "guild1" := Scenario.asg_bot3_ended ]} 5000 "guild1"
           "bot-1" Scenario.asg_bot3_ended Scenario.bot1).
  - vm_compute. reflexivity.
  - left. reflexivity.
  - vm_compute. reflexivity.
  - discriminate.
Defined.

End AssignProofs2.

(* --------------------------------------------------------------------- *)
(** ** Stale-assignment sweep *)
(* --------------------------------------------------------------------- *)

Section SweepProofs.
Import Store.

(** Claim C8 (counterexample): sweeping at time 400000 with the default
    threshold deactivates the row of ["guild1"] (active, idle since 0) and
    also changes its [updatedAt] (0 before, 400000 after): the sweep does
    change a field other than [isActive]. *)
Lemma release_stale_counterexample :
  exists a',
    releaseInactiveAssignments {[ "guild1" := Scenario.asg_idle ]} 400000
      DEFAULT_INACTIVE_THRESHOLD !! "guild1" = Some a' /\
    isActive a' = false /\ updatedAt a' = 400000 /\
    updatedAt Scenario.asg_idle = 0.
Proof.
  eexists. split; [vm_compute; reflexivity|]. vm_compute. repeat split.
Qed.

Lemma release_stale_lookup (db : store) (now th : Z) (k : string) :
  releaseInactiveAssignments db now th !! k =
    (fun a => if is_stale (now - th) a then set_inactive now a else a) <$> (db !! k).
Proof. unfold releaseInactiveAssignments. apply lookup_fmap. Qed.

(** Claim C8 (amended): [releaseInactiveAssignments] keeps every row and
    no row is added; on exactly the rows that are active with
    [lastActivity] older than [now - inactiveThreshold] it sets [isActive]
    to [false] and (by the schema's [timestamps] option) [updatedAt] to
    [now]; every other field, owner included, is kept, and every other row
    is untouched. Two sweeps in a row at the same clock reading give the
    same store as one. *)
Theorem release_stale_sweep (db : store) (now inactiveThreshold : Z) :
  (forall k a, db !! k = Some a ->
     exists a', releaseInactiveAssignments db now inactiveThreshold !! k = Some a' /\
       same_document_fields a a' /\
       (if isActive a && Z.ltb (lastActivity a) (now - inactiveThreshold)
        then isActive a' = false /\ updatedAt a' = now
        else a' = a)) /\
  (forall k, db !! k = None ->
     releaseInactiveAssignments db now inactiveThreshold !! k = None) /\
  releaseInactiveAssignments (releaseInactiveAssignments db now inactiveThreshold)
    now inactiveThreshold =
  releaseInactiveAssignments db now inactiveThreshold.
Proof.
  split; [|split].
  - intros k a Hk. rewrite release_stale_lookup, Hk. cbn [fmap option_fmap option_map].
    eexists. split; [reflexivity|]. unfold is_stale.
    destruct (isActive a && Z.ltb (lastActivity a) (now - inactiveThreshold)).
    + split; [repeat split; reflexivity | split; reflexivity].
    + split; [repeat split; reflexivity | reflexivity].
  - intros k Hk. rewrite release_stale_lookup, Hk. reflexivity.
  - unfold releaseInactiveAssignments. rewrite <- map_fmap_compose.
    apply map_fmap_ext. intros i a _. unfold compose.
    destruct (is_stale (now - inactiveThreshold) a) eqn:Hs; [|rewrite Hs; reflexivity].
    reflexivity.
Qed.

End SweepProofs.

(* ===================================================================== *)
(** * Further properties of the code *)
(* ===================================================================== *)

(* --------------------------------------------------------------------- *)
(** ** Command locks *)
(* --------------------------------------------------------------------- *)

Section LockFacts.
Import Locks.

Lemma acquire_other_key (m : lock_table) (k k' b : string) (now : Z) :
  k' <> k -> snd (acquireCommandLock m k b now) !! k' = m !! k'.
Proof.
  intros Hne. unfold acquireCommandLock.
  destruct (m !! k) as [e|]; [destruct (Z.gtb _ _); [|destruct (negb _)]|];
    cbn [snd]; rewrite ?lookup_insert_ne, ?lookup_delete_ne by congruence;
    reflexivity.
Qed.

Lemma release_other_key (m : lock_table) (k k' b : string) :
  k' <> k -> releaseCommandLock m k b !! k' = m !! k'.
Proof.
  intros Hne. unfold releaseCommandLock.
  destruct (m !! k) as [e|]; [destruct (String.eqb _ _)|];
    rewrite ?lookup_delete_ne by congruence; reflexivity.
Qed.

Lemma has_other_key (m : lock_table) (k k' b : string) (now : Z) :
  k' <> k -> snd (hasCommandLock m k b now) !! k' = m !! k'.
Proof.
  intros Hne. unfold hasCommandLock.
  destruct (m !! k) as [e|]; [destruct (Z.gtb _ _)|]; cbn [snd];
    rewrite ?lookup_delete_ne by congruence; reflexivity.
Qed.

(** [acquireCommandLock] succeeds exactly when the guild has no unexpired
    lock or the caller holds it; on success the caller holds the lock, on
    failure the table is unchanged. *)
Theorem acquire_succeeds_iff (m : lock_table) (k b : string) (now : Z) :
  (fst (acquireCommandLock m k b now) = true <->
     lock_holder m k now = None \/ lock_holder m k now = Some b) /\
  (fst (acquireCommandLock m k b now) = true ->
     lock_holder (snd (acquireCommandLock m k b now)) k now = Some b) /\
  (fst (acquireCommandLock m k b now) = false ->
     snd (acquireCommandLock m k b now) = m).
Proof.
  assert (Hnew : forall m' : lock_table,
            lock_holder (<[k := mk_lock b now]> m') k now = Some b).
  { intros m'. unfold lock_holder. rewrite lookup_insert_eq. cbn.
    replace (Z.gtb (now - now) LOCK_TIMEOUT) with false
      by (unfold LOCK_TIMEOUT; lia). reflexivity. }
  unfold acquireCommandLock.
  destruct (m !! k) as [e|] eqn:Hk.
  - destruct (Z.gtb (now - timestamp e) LOCK_TIMEOUT) eqn:Hexp.
    + cbn [fst snd]. unfold lock_holder at 1 2. rewrite Hk, Hexp.
      split; [tauto|split; [intros; apply Hnew | discriminate]].
    + unfold lock_holder. rewrite Hk, Hexp.
      destruct (String.eqb_spec (botId e) b) as [Hb|Hb]; cbn [negb fst snd].
      * rewrite Hk, Hexp, Hb. split; [tauto | split; [reflexivity | discriminate]].
      * split; [|split; [discriminate | reflexivity]].
        split; [discriminate|]. intros [H|H]; [discriminate|]. congruence.
  - cbn [fst snd]. unfold lock_holder at 1 2. rewrite Hk.
    split; [tauto|split; [intros; apply Hnew | discriminate]].
Qed.

(** [hasCommandLock] answers whether the caller holds an unexpired lock;
    the expired entry it may delete was no lock anyway: at the same clock
    reading, every guild has the same holder before and after. *)
Theorem has_lock_observes_holder (m : lock_table) (k b : string) (now : Z) :
  (fst (hasCommandLock m k b now) = true <-> lock_holder m k now = Some b) /\
  (forall k', lock_holder (snd (hasCommandLock m k b now)) k' now =
              lock_holder m k' now).
Proof.
  unfold hasCommandLock, lock_holder.
  destruct (m !! k) as [e|] eqn:Hk.
  - destruct (Z.gtb (now - timestamp e) LOCK_TIMEOUT) eqn:Hexp; cbn [fst snd].
    + split; [split; discriminate|].
      intros k'. destruct (String.eqb_spec k' k) as [->|Hne].
      * rewrite lookup_delete_eq, Hk, Hexp. reflexivity.
      * rewrite lookup_delete_ne by congruence. reflexivity.
    + split; [|reflexivity].
      destruct (String.eqb_spec (botId e) b) as [->|Hb];
        split; try reflexivity; try discriminate. congruence.
  - cbn [fst snd]. split; [split; discriminate | reflexivity].
Qed.

(** Locks of different guilds are independent: acquiring, releasing or
    probing the lock of guild [k] leaves the entry of any other guild as it
    was. *)
Theorem locks_other_guilds (m : lock_table) (k k' b : string) (now : Z) :
  k' <> k ->
  snd (acquireCommandLock m k b now) !! k' = m !! k' /\
  releaseCommandLock m k b !! k' = m !! k' /\
  snd (hasCommandLock m k b now) !! k' = m !! k'.
Proof.
  intros Hne. split; [|split].
  - apply acquire_other_key, Hne.
  - apply release_other_key, Hne.
  - apply has_other_key, Hne.
Qed.

Lemma locks_other_guilds_witness :
  let m : lock_table := {[ "guild2" := mk_lock "bot-2" 0 ]} in
  snd (acquireCommandLock m "guild1" "bot-1" 20000) !! "guild2" = m !! "guild2" /\
  releaseCommandLock m "guild1" "bot-1" !! "guild2" = m !! "guild2" /\
  snd (hasCommandLock m "guild1" "bot-1" 20000) !! "guild2" = m !! "guild2".
Proof.
  apply (locks_other_guilds {[ "guild2" := mk_lock "bot-2" 0 ]} "guild1" "guild2"
           "bot-1" 20000).
  discriminate.
Defined.

End LockFacts.

(* --------------------------------------------------------------------- *)
(** ** Command routing *)
(* --------------------------------------------------------------------- *)

Section RoutingFacts.
Import Cluster Router.

Lemma failover_after_probe_other_key (lc : string -> string -> Z)
    (bots : bot_cluster) (asg : option Store.assignment) (L : Locks.lock_table)
    (c : client) (g k' : string) (uvc : option string) (now : Z) :
  k' <> g ->
  snd (failover_after_probe lc bots asg L c g uvc now) !! k' = L !! k'.
Proof.
  intros Hne. unfold failover_after_probe, takeover.
  repeat case_match; cbn [snd]; try reflexivity;
    try (apply acquire_other_key; exact Hne);
    try (match goal with
         | H : Locks.acquireCommandLock _ _ _ _ = _ |- _ =>
             rewrite <- (acquire_other_key L g k' (botId c) now Hne), H;
             reflexivity
         end).
Qed.

(** [shouldHandleCommand] for guild [g] never changes the lock entry of any
    other guild. *)
Theorem routing_other_guild_locks (lc : string -> string -> Z)
    (bots : bot_cluster) (asg : option Store.assignment) (locks : Locks.lock_table)
    (c : client) (g k' : string) (isMusic : bool) (uvc : option string) (now : Z) :
  k' <> g ->
  snd (shouldHandleCommand lc bots asg locks c g isMusic uvc now) !! k' = locks !! k'.
Proof.
  intros Hne. unfold shouldHandleCommand.
  destruct (isMainBot c).
  - repeat case_match; cbn [snd]; try reflexivity.
    apply acquire_other_key, Hne.
  - destruct isMusic; cbn [negb]; [|reflexivity].
    destruct (Locks.hasCommandLock locks g (botId c) now) as [has l1] eqn:Hh.
    assert (H1 : l1 !! k' = locks !! k').
    { rewrite <- (has_other_key locks g k' (botId c) now Hne), Hh. reflexivity. }
    destruct has; cbn [negb].
    + rewrite failover_after_probe_other_key by exact Hne. exact H1.
    + destruct (Locks.acquireCommandLock l1 g (botId c) now) as [got l2] eqn:Ha.
      assert (H2 : l2 !! k' = l1 !! k').
      { rewrite <- (acquire_other_key l1 g k' (botId c) now Hne), Ha. reflexivity. }
      destruct got; cbn [negb snd].
      * rewrite failover_after_probe_other_key by exact Hne.
        rewrite release_other_key by exact Hne. congruence.
      * congruence.
Qed.

Lemma routing_other_guild_locks_witness :
  let locks : Locks.lock_table := {[ "guild2" := Locks.mk_lock "bot-3" 0 ]} in
  snd (shouldHandleCommand code_unit_compare Scenario.cluster None locks
         Scenario.bot2 "guild1" true (Some "C2") 100) !! "guild2" =
  locks !! "guild2".
Proof.
  apply (routing_other_guild_locks code_unit_compare Scenario.cluster None
           {[ "guild2" := Locks.mk_lock "bot-3" 0 ]} Scenario.bot2 "guild1" "guild2"
           true (Some "C2") 100).
  discriminate.
Defined.

Lemma failover_after_probe_busy (lc : string -> string -> Z) (bots : bot_cluster)
    (asg : option Store.assignment) (L : Locks.lock_table) (c : client)
    (g u : string) (now : Z) :
  u <> "" -> busy_elsewhere c g (Some u) = true ->
  fst (failover_after_probe lc bots asg L c g (Some u) now) = false.
Proof.
  intros Hu Hb. unfold busy_elsewhere in Hb. unfold failover_after_probe.
  assert (Htu : truthy (Some u) = true).
  { cbn. apply String.eqb_neq in Hu. rewrite Hu. reflexivity. }
  rewrite Htu. destruct (get_player c g) as [p|]; [|discriminate].
  apply andb_prop in Hb as [Hvc Hneq]. rewrite Hvc, Hneq. reflexivity.
Qed.

(** A bot (main or failover) that has a player in this guild in a voice
    channel other than the requester's never handles a music command. *)
Theorem busy_bot_defers (lc : string -> string -> Z) (bots : bot_cluster)
    (asg : option Store.assignment) (locks : Locks.lock_table) (c : client)
    (g u : string) (now : Z) :
  u <> "" -> busy_elsewhere c g (Some u) = true ->
  fst (shouldHandleCommand lc bots asg locks c g true (Some u) now) = false.
Proof.
  intros Hu Hb. unfold shouldHandleCommand.
  assert (Htu : truthy (Some u) = true).
  { cbn. apply String.eqb_neq in Hu. rewrite Hu. reflexivity. }
  destruct (isMainBot c).
  - rewrite Htu, Hb. reflexivity.
  - cbn [negb].
    destruct (Locks.hasCommandLock locks g (botId c) now) as [has l1].
    destruct has; cbn [negb].
    + apply failover_after_probe_busy; assumption.
    + destruct (Locks.acquireCommandLock l1 g (botId c) now) as [got l2].
      destruct got; cbn [negb]; [|reflexivity].
      apply failover_after_probe_busy; assumption.
Qed.

Lemma busy_bot_defers_witness :
  fst (shouldHandleCommand code_unit_compare Scenario.cluster None ∅
         Scenario.bot1 "guild1" true (Some "C2") 100) = false.
Proof.
  apply busy_bot_defers; [discriminate | vm_compute; reflexivity].
Defined.

(** A failover bot never handles a command while another peer holds an
    unexpired lock on the guild, and then leaves the lock table as it was. *)
Theorem failover_defers_to_lock_holder (lc : string -> string -> Z)
    (bots : bot_cluster) (asg : option Store.assignment) (locks : Locks.lock_table)
    (c : client) (g q : string) (isMusic : bool) (uvc : option string) (now : Z) :
  isMainBot c = false ->
  Locks.lock_holder locks g now = Some q -> q <> botId c ->
  shouldHandleCommand lc bots asg locks c g isMusic uvc now = (false, locks).
Proof.
  intros Hm Hh Hq. unfold shouldHandleCommand. rewrite Hm.
  destruct isMusic; cbn [negb]; [|reflexivity].
  unfold Locks.lock_holder in Hh.
  unfold Locks.hasCommandLock, Locks.acquireCommandLock.
  destruct (locks !! g) as [e|] eqn:Hg; [|discriminate].
  destruct (Z.gtb (now - Locks.timestamp e) Locks.LOCK_TIMEOUT) eqn:Hexp; [discriminate|].
  injection Hh as <-. apply String.eqb_neq in Hq. rewrite Hq. cbn [negb].
  rewrite Hg, Hexp, Hq. reflexivity.
Qed.

Lemma failover_defers_to_lock_holder_witness :
  shouldHandleCommand code_unit_compare Scenario.cluster None
    {[ "guild1" := Locks.mk_lock "bot-3" 0 ]} Scenario.bot2 "guild1" true (Some "C2") 100 =
  (false, {[ "guild1" := Locks.mk_lock "bot-3" 0 ]}).
Proof.
  apply (failover_defers_to_lock_holder _ _ _ _ _ _ "bot-3");
    [reflexivity | vm_compute; reflexivity | discriminate].
Defined.

(** A failover bot with no lock held against it, already playing in the
    requester's voice channel, handles the music command and ends up
    holding the guild's lock. *)
Theorem failover_same_channel_handles (lc : string -> string -> Z)
    (bots : bot_cluster) (asg : option Store.assignment) (locks : Locks.lock_table)
    (c : client) (p : player) (g u : string) (now : Z) :
  isMainBot c = false -> u <> "" ->
  get_player c g = Some p -> Cluster.voiceChannelId p = Some u ->
  Locks.lock_holder locks g now = None \/
  Locks.lock_holder locks g now = Some (botId c) ->
  fst (shouldHandleCommand lc bots asg locks c g true (Some u) now) = true /\
  Locks.lock_holder
    (snd (shouldHandleCommand lc bots asg locks c g true (Some u) now)) g now =
    Some (botId c).
Proof.
  intros Hm Hu Hp Hvc Hlock.
  destruct (failover_probe lc bots asg locks c g (Some u) now Hm Hlock) as [L [HL ->]].
  unfold failover_after_probe.
  assert (Htu : truthy (Some u) = true).
  { cbn. apply String.eqb_neq in Hu. rewrite Hu. reflexivity. }
  rewrite Htu, Hp, Hvc, Htu. cbn iota beta. rewrite Hvc. cbn [str_eqb negb].
  rewrite String.eqb_refl. cbn [negb fst snd].
  split; [reflexivity|]. apply (acquire_free_or_own L g (botId c) now HL).
Qed.

Lemma failover_same_channel_handles_witness :
  let bot2' := mk_client "bot-2" false true 1
                 (Some {[ "guild1" := mk_player (Some "C2") ]}) "c-2" in
  fst (shouldHandleCommand code_unit_compare Scenario.cluster None ∅
         bot2' "guild1" true (Some "C2") 100) = true.
Proof.
  cbn zeta.
  apply (failover_same_channel_handles _ _ _ _ _ (mk_player (Some "C2")));
    [reflexivity | discriminate | vm_compute; reflexivity | reflexivity
    | left; vm_compute; reflexivity].
Defined.

(** A failover bot with no lock held against it and no player in a voice
    channel of this guild handles a music command when the guild is actively
    assigned to it, and ends up holding the guild's lock. *)
Theorem failover_assigned_handles (lc : string -> string -> Z)
    (bots : bot_cluster) (asg : option Store.assignment) (locks : Locks.lock_table)
    (c : client) (g : string) (uvc : option string) (now : Z) :
  isMainBot c = false ->
  (forall p, get_player c g = Some p -> truthy (Cluster.voiceChannelId p) = false) ->
  assigned_here asg c = true ->
  Locks.lock_holder locks g now = None \/
  Locks.lock_holder locks g now = Some (botId c) ->
  fst (shouldHandleCommand lc bots asg locks c g true uvc now) = true /\
  Locks.lock_holder (snd (shouldHandleCommand lc bots asg locks c g true uvc now))
    g now = Some (botId c).
Proof.
  intros Hm Hown Hasg Hlock.
  destruct (failover_probe lc bots asg locks c g uvc now Hm Hlock) as [L [HL ->]].
  unfold failover_after_probe.
  replace (if truthy uvc then
             match get_player c g with
             | Some p => if truthy (Cluster.voiceChannelId p) then Some p else None
             | None => None end
           else None) with (@None player).
  2:{ destruct (truthy uvc); [|reflexivity].
      destruct (get_player c g) as [p|] eqn:Hp; [|reflexivity].
      rewrite (Hown p eq_refl). reflexivity. }
  rewrite Hasg. cbn [fst snd]. split; [reflexivity|].
  apply (acquire_free_or_own L g (botId c) now HL).
Qed.

Lemma failover_assigned_handles_witness :
  fst (shouldHandleCommand code_unit_compare Scenario.cluster (Some Scenario.asg_bot2) ∅
         Scenario.bot2 "guild1" true (Some "C9") 100) = true.
Proof.
  apply failover_assigned_handles;
    [reflexivity | intros p Hp; vm_compute in Hp; discriminate
    | vm_compute; reflexivity | left; vm_compute; reflexivity].
Defined.

End RoutingFacts.

(* --------------------------------------------------------------------- *)
(** ** Guild assignments *)
(* --------------------------------------------------------------------- *)

Section StoreFacts.
Import Store.


Lemma wf_find (db : store) (g : string) (a : assignment) :
  wf db -> findById db g = Some a -> _id a = g.
Proof. intros Hwf Hg. exact (Hwf g a Hg). Qed.

Lemma wf_insert (db : store) (k : string) (a : assignment) :
  wf db -> _id a = k -> wf (<[k := a]> db).
Proof.
  intros Hwf Hid k' a' Hk'. destruct (String.eqb_spec k' k) as [->|Hne].
  - rewrite lookup_insert_eq in Hk'. congruence.
  - rewrite lookup_insert_ne in Hk' by congruence. exact (Hwf k' a' Hk').
Qed.



End StoreFacts.

(* --------------------------------------------------------------------- *)
(** ** Release, force-assignment and voice hooks *)
(* --------------------------------------------------------------------- *)

Section OpsFacts.
Import Cluster Store BalancerOps.

Lemma cluster_get_in (bots : bot_cluster) (id : string) (c : client) :
  cluster_get bots id = Some c -> In (id, c) bots.
Proof.
  induction bots as [|[k c'] rest IH]; cbn; [discriminate|].
  destruct (String.eqb_spec k id) as [->|_].
  - intros [= <-]. left. reflexivity.
  - intros H. right. exact (IH H).
Qed.

Lemma wf_singleton (a : assignment) : wf {[ _id a := a ]}.
Proof. intros k a' Hk. apply lookup_singleton_Some in Hk as [<- <-]. reflexivity. Qed.

Lemma release_lookup (db : store) (now : Z) (g : string) (a : assignment) :
  wf db -> findById db g = Some a ->
  wf (releaseBot db now g) /\
  findById (releaseBot db now g) g = Some (fst (deactivate db now a)).
Proof.
  intros Hwf Hg. pose proof (wf_find db g a Hwf Hg) as Hid.
  unfold releaseBot. rewrite Hg. unfold deactivate. cbn [fst snd].
  split; [apply wf_insert; [exact Hwf|reflexivity]|].
  unfold findById. rewrite Hid. apply lookup_insert_eq.
Qed.

Lemma join_lookup (db : store) (now : Z) (g ch : string) (a : assignment) :
  wf db -> findById db g = Some a ->
  wf (Voice.on_bot_joined db now g ch) /\
  findById (Voice.on_bot_joined db now g ch) g =
    Some (fst (activate db now a (Some ch) (textChannelId a))).
Proof.
  intros Hwf Hg. pose proof (wf_find db g a Hwf Hg) as Hid.
  unfold Voice.on_bot_joined. rewrite Hg. unfold activate. cbn [fst snd].
  split; [apply wf_insert; [exact Hwf|reflexivity]|].
  unfold findById. rewrite Hid. apply lookup_insert_eq.
Qed.

Lemma reassign_lookup (db : store) (now : Z) (g nb nc r : string) :
  wf db ->
  wf (snd (reassignGuild db now g nb nc r)) /\
  findById (snd (reassignGuild db now g nb nc r)) g =
    Some (fst (reassignGuild db now g nb nc r)) /\
  assignedBotId (fst (reassignGuild db now g nb nc r)) = nb /\
  assignmentReason (fst (reassignGuild db now g nb nc r)) = r /\
  (forall a, findById db g = Some a ->
     isActive (fst (reassignGuild db now g nb nc r)) = isActive a) /\
  (findById db g = None -> isActive (fst (reassignGuild db now g nb nc r)) = false) /\
  (forall k, k <> g -> snd (reassignGuild db now g nb nc r) !! k = db !! k).
Proof.
  intros Hwf. unfold reassignGuild.
  destruct (findById db g) as [a|] eqn:Hg; cbn [fst snd].
  - pose proof (wf_find db g a Hwf Hg) as Hid.
    split; [apply wf_insert; [exact Hwf|reflexivity]|].
    unfold findById. rewrite Hid, lookup_insert_eq.
    split; [reflexivity|split; [reflexivity|split; [reflexivity|]]].
    split; [intros a' [= <-]; reflexivity|split; [discriminate|]].
    intros k Hk. apply lookup_insert_ne. congruence.
  - split; [apply wf_insert; [exact Hwf|reflexivity]|].
    unfold findById. rewrite lookup_insert_eq.
    split; [reflexivity|split; [reflexivity|split; [reflexivity|]]].
    split; [discriminate|split; [reflexivity|]].
    intros k Hk. apply lookup_insert_ne. congruence.
Qed.

Lemma assign_sticky (opts : Balancer.lb_options) (bots : bot_cluster) (db : store)
    (now : Z) (g : string) (a : assignment) (c : client) :
  findById db g = Some a -> isActive a = true ->
  cluster_get bots (assignedBotId a) = Some c -> isReady c = true ->
  snd (Balancer.assignBot opts bots db now g) = false /\
  option_map (fun r => fst (fst r)) (fst (fst (Balancer.assignBot opts bots db now g))) =
    Some (assignedBotId a).
Proof.
  intros Hg Ha Hc Hr. unfold Balancer.assignBot. rewrite Hg. cbv beta iota zeta.
  rewrite Ha, Hc, Hr. cbv beta iota.
  destruct (touch db now a). split; reflexivity.
Qed.

Lemma assign_selects (opts : Balancer.lb_options) (bots : bot_cluster) (db : store)
    (now : Z) (g : string) :
  (forall a, findById db g = Some a -> isActive a = true ->
     forall c, cluster_get bots (assignedBotId a) = Some c -> isReady c = false) ->
  snd (Balancer.assignBot opts bots db now g) = true /\
  option_map (fun r => fst (fst r)) (fst (fst (Balancer.assignBot opts bots db now g))) =
    option_map fst (Balancer._selectBot opts bots).
Proof.
  intros Hno. unfold Balancer.assignBot.
  destruct (findById db g) as [a|] eqn:Hg; cbv beta iota zeta.
  - destruct (isActive a) eqn:Ha; cbv beta iota.
    + destruct (cluster_get bots (assignedBotId a)) as [c|] eqn:Hc; cbv beta iota.
      * rewrite (Hno a eq_refl Ha c Hc). cbv beta iota.
        destruct (Balancer._selectBot opts bots) as [[s c']|]; cbv beta iota;
          [destruct (getOrCreateAssignment _ _ _ _ _ _)|]; split; reflexivity.
      * destruct (Balancer._selectBot opts bots) as [[s c']|]; cbv beta iota;
          [destruct (getOrCreateAssignment _ _ _ _ _ _)|]; split; reflexivity.
    + destruct (Balancer._selectBot opts bots) as [[s c']|]; cbv beta iota;
        [destruct (getOrCreateAssignment _ _ _ _ _ _)|]; split; reflexivity.
  - destruct (Balancer._selectBot opts bots) as [[s c']|]; cbv beta iota;
      [destruct (getOrCreateAssignment _ _ _ _ _ _)|]; split; reflexivity.
Qed.

(** [releaseBot] deactivates the guild's document (inactive, no voice
    channel, [lastActivity] stamped) but keeps its owner: afterwards
    [isAssignedToBot] still answers true for that bot, and [getAssignedBot]
    still returns it whenever it did before, since neither reads
    [isActive]. *)
Theorem release_keeps_owner (bots : bot_cluster) (db : store) (now : Z) (g : string)
    (a : assignment) :
  wf db -> findById db g = Some a ->
  (exists a', findById (releaseBot db now g) g = Some a' /\
     assignedBotId a' = assignedBotId a /\ isActive a' = false /\
     voiceChannelId a' = None /\ lastActivity a' = now) /\
  isAssignedToBot (releaseBot db now g) g (assignedBotId a) = true /\
  option_map fst (getAssignedBot bots (releaseBot db now g) g) =
    option_map fst (getAssignedBot bots db g).
Proof.
  intros Hwf Hg. destruct (release_lookup db now g a Hwf Hg) as [_ Hr].
  unfold isAssignedToBot, getAssignedBot. rewrite Hr, Hg.
  unfold deactivate. cbn [fst assignedBotId isActive voiceChannelId lastActivity].
  split; [eexists; split; [reflexivity|repeat split]|].
  rewrite String.eqb_refl. split; [reflexivity|].
  destruct (cluster_get bots (assignedBotId a)) as [c|]; [|reflexivity].
  destruct (isReady c); reflexivity.
Qed.

Lemma release_keeps_owner_witness :
  isAssignedToBot (releaseBot {[ "guild1" := Scenario.asg_bot2 ]} 700 "guild1")
    "guild1" "bot-2" = true /\
  option_map fst (getAssignedBot Scenario.cluster
    (releaseBot {[ "guild1" := Scenario.asg_bot2 ]} 700 "guild1") "guild1") =
    Some ("bot-2", Scenario.bot2).
Proof.
  destruct (release_keeps_owner Scenario.cluster {[ "guild1" := Scenario.asg_bot2 ]} 700
              "guild1" Scenario.asg_bot2 (wf_singleton Scenario.asg_bot2)
              ltac:(vm_compute; reflexivity)) as [_ [H1 H2]].
  split; [exact H1|]. rewrite H2. vm_compute. reflexivity.
Defined.

(** After [releaseBot] on a guild that has a document, the next
    [assignBot] always runs [_selectBot] and reports the bot it picks. *)
Theorem release_then_assign_selects (opts : Balancer.lb_options) (bots : bot_cluster)
    (db : store) (now now' : Z) (g : string) (a : assignment) :
  wf db -> findById db g = Some a ->
  snd (Balancer.assignBot opts bots (releaseBot db now g) now' g) = true /\
  option_map (fun r => fst (fst r))
    (fst (fst (Balancer.assignBot opts bots (releaseBot db now g) now' g))) =
    option_map fst (Balancer._selectBot opts bots).
Proof.
  intros Hwf Hg. destruct (release_lookup db now g a Hwf Hg) as [_ Hr].
  apply assign_selects. intros a' Ha' Hact c Hc.
  rewrite Hr in Ha'. injection Ha' as <-. discriminate Hact.
Qed.

Lemma release_then_assign_selects_witness :
  option_map (fun r => fst (fst r))
    (fst (fst (Balancer.assignBot (Balancer.mk_options "priority" 100) Scenario.cluster
       (releaseBot {[ "guild1" := Scenario.asg_bot2 ]} 700 "guild1") 800 "guild1"))) =
    Some "bot-1".
Proof.
  destruct (release_then_assign_selects (Balancer.mk_options "priority" 100) Scenario.cluster
              {[ "guild1" := Scenario.asg_bot2 ]} 700 800 "guild1" Scenario.asg_bot2
              (wf_singleton Scenario.asg_bot2) ltac:(vm_compute; reflexivity)) as [_ H].
  rewrite H. vm_compute. reflexivity.
Defined.

(** When a bot joins a voice channel, the voice hook activates the guild's
    document in that channel without checking which bot it names; if the
    named bot is in the cluster and ready, the next [assignBot] routes the
    guild to that bot without running the selector. *)
Theorem join_routes_to_recorded_owner (opts : Balancer.lb_options) (bots : bot_cluster)
    (db : store) (now now' : Z) (g ch : string) (a : assignment) (c : client) :
  wf db -> findById db g = Some a ->
  cluster_get bots (assignedBotId a) = Some c -> isReady c = true ->
  (exists a', findById (Voice.on_bot_joined db now g ch) g = Some a' /\
     isActive a' = true /\ assignedBotId a' = assignedBotId a /\
     voiceChannelId a' = Some ch) /\
  snd (Balancer.assignBot opts bots (Voice.on_bot_joined db now g ch) now' g) = false /\
  option_map (fun r => fst (fst r))
    (fst (fst (Balancer.assignBot opts bots (Voice.on_bot_joined db now g ch) now' g))) =
    Some (assignedBotId a).
Proof.
  intros Hwf Hg Hc Hr. destruct (join_lookup db now g ch a Hwf Hg) as [_ Hj].
  split.
  - eexists. split; [exact Hj|]. unfold activate. cbn. repeat split.
  - exact (assign_sticky opts bots _ now' g _ c Hj eq_refl Hc Hr).
Qed.

Lemma join_routes_to_recorded_owner_witness :
  option_map (fun r => fst (fst r))
    (fst (fst (Balancer.assignBot (Balancer.mk_options "priority" 100) Scenario.cluster
       (Voice.on_bot_joined {[ "guild1" := Scenario.asg_bot3_ended ]} 500 "guild1" "C2")
       600 "guild1"))) =
    Some "bot-3".
Proof.
  destruct (join_routes_to_recorded_owner (Balancer.mk_options "priority" 100)
              Scenario.cluster {[ "guild1" := Scenario.asg_bot3_ended ]} 500 600 "guild1" "C2"
              Scenario.asg_bot3_ended Scenario.bot3 (wf_singleton Scenario.asg_bot3_ended)
              ltac:(vm_compute; reflexivity) ltac:(vm_compute; reflexivity) eq_refl)
    as [_ [_ H]].
  exact H.
Defined.

(** [forceAssign] succeeds exactly when the target bot is in the cluster
    and ready; on failure the store is unchanged; on success the guild's
    document names the target with reason ["manual"], the store stays
    well formed and no other guild's document changes. *)
Theorem force_assign_effect (botName : client -> string) (bots : bot_cluster) (db : store)
    (now : Z) (g t : string) :
  wf db ->
  let '((ok, _), db') := forceAssign botName bots db now g t in
  (ok = true <-> exists c, cluster_get bots t = Some c /\ isReady c = true) /\
  (ok = false -> db' = db) /\
  (ok = true -> wf db' /\ isAssignedToBot db' g t = true /\
     (exists a', findById db' g = Some a' /\ assignmentReason a' = "manual") /\
     forall k, k <> g -> db' !! k = db !! k).
Proof.
  intros Hwf. unfold forceAssign.
  destruct (cluster_get bots t) as [c|] eqn:Hc.
  - destruct (isReady c) eqn:Hr; cbn [negb].
    + destruct (reassign_lookup db now g t (clientId c) "manual" Hwf)
        as [Hw [Hf [Hb [Hrs [_ [_ Hk]]]]]].
      split; [split; [intros _; exists c; split; [reflexivity|exact Hr]|reflexivity]|].
      split; [discriminate|]. intros _. split; [exact Hw|]. split.
      * unfold isAssignedToBot. rewrite Hf, Hb. apply String.eqb_refl.
      * split; [|exact Hk]. eexists. split; [exact Hf|exact Hrs].
    + split; [split; [discriminate|intros [c' [Hc' Hr']]; congruence]|].
      split; [reflexivity|discriminate].
  - split; [split; [discriminate|intros [c' [Hc' _]]; discriminate]|].
    split; [reflexivity|discriminate].
Qed.

Lemma force_assign_effect_witness :
  let '((ok, _), db') := forceAssign botId Scenario.cluster
                           {[ "guild1" := Scenario.asg_bot2 ]} 700 "guild1" "bot-3" in
  ok = true /\ isAssignedToBot db' "guild1" "bot-3" = true.
Proof.
  pose proof (force_assign_effect botId Scenario.cluster {[ "guild1" := Scenario.asg_bot2 ]}
                700 "guild1" "bot-3" (wf_singleton Scenario.asg_bot2)) as H.
  destruct (forceAssign _ _ _ _ _ _) as [[ok msg] db'].
  destruct H as [[_ Hok] [_ Htrue]].
  assert (ok = true) as E by (apply Hok; exists Scenario.bot3; split; reflexivity).
  split; [exact E|]. destruct (Htrue E) as [_ [Ha _]]. exact Ha.
Defined.

(** A successful [forceAssign] keeps the document's [isActive] flag: the
    next [assignBot] returns the target bot without selection when the
    guild's document was active, and runs the selector when the guild had
    no active document. *)
Theorem force_assign_sticks_if_active (opts : Balancer.lb_options)
    (botName : client -> string) (bots : bot_cluster) (db : store) (now now' : Z)
    (g t : string) (c : client) :
  wf db -> cluster_get bots t = Some c -> isReady c = true ->
  (forall a, findById db g = Some a -> isActive a = true ->
     snd (Balancer.assignBot opts bots (snd (forceAssign botName bots db now g t)) now' g)
       = false /\
     option_map (fun r => fst (fst r))
       (fst (fst (Balancer.assignBot opts bots (snd (forceAssign botName bots db now g t))
                    now' g))) = Some t) /\
  ((forall a, findById db g = Some a -> isActive a = false) ->
     snd (Balancer.assignBot opts bots (snd (forceAssign botName bots db now g t)) now' g)
       = true).
Proof.
  intros Hwf Hc Hr. unfold forceAssign. rewrite Hc, Hr. cbn [negb snd].
  destruct (reassign_lookup db now g t (clientId c) "manual" Hwf)
    as [_ [Hf [Hb [_ [Hact [Hnone _]]]]]].
  split.
  - intros a Hg Ha. pose proof (assign_sticky opts bots _ now' g _ c Hf) as H.
    rewrite Hb in H. apply H; [rewrite (Hact a Hg); exact Ha|exact Hc|exact Hr].
  - intros Hin. refine (proj1 (assign_selects opts bots _ now' g _)).
    intros a' Ha' Hact' c' Hc'. rewrite Hf in Ha'. injection Ha' as <-.
    destruct (findById db g) as [a|] eqn:Hg.
    + rewrite (Hact a eq_refl), (Hin a eq_refl) in Hact'. discriminate.
    + rewrite (Hnone eq_refl) in Hact'. discriminate.
Qed.

Lemma force_assign_sticks_if_active_witness :
  option_map (fun r => fst (fst r))
    (fst (fst (Balancer.assignBot (Balancer.mk_options "priority" 100) Scenario.cluster
       (snd (forceAssign botId Scenario.cluster {[ "guild1" := Scenario.asg_bot2 ]}
               700 "guild1" "bot-3")) 800 "guild1"))) =
    Some "bot-3".
Proof.
  destruct (force_assign_sticks_if_active (Balancer.mk_options "priority" 100) botId
              Scenario.cluster {[ "guild1" := Scenario.asg_bot2 ]} 700 800 "guild1" "bot-3"
              Scenario.bot3 (wf_singleton Scenario.asg_bot2) eq_refl eq_refl) as [H _].
  exact (proj2 (H Scenario.asg_bot2 ltac:(vm_compute; reflexivity) eq_refl)).
Defined.

End OpsFacts.

(* --------------------------------------------------------------------- *)
(** ** Bot status documents and the selectors *)
(* --------------------------------------------------------------------- *)

Section StatusFacts.
Import Balancer StatusDoc.

(** [incrementPlayerCount] adds one player; [decrementPlayerCount] never
    leaves a negative count, stays at 0 from 0 or below, and undoes an
    increment on a non-negative count. *)
Theorem player_count_floor (now now' : Z) (d : doc) :
  playerCount (incrementPlayerCount now d) = playerCount d + 1 /\
  0 <= playerCount (decrementPlayerCount now d) /\
  (playerCount d <= 0 -> playerCount (decrementPlayerCount now d) = 0) /\
  (0 <= playerCount d ->
     playerCount (decrementPlayerCount now' (incrementPlayerCount now d)) = playerCount d).
Proof.
  unfold incrementPlayerCount, decrementPlayerCount. cbn.
  repeat split; intros; lia.
Qed.

(** Increment and decrement keep [status] and [playerCount] consistent,
    and a decrement after an increment restores both of them. *)
Theorem status_count_consistent (now now' : Z) (d : doc) :
  consistent d ->
  consistent (incrementPlayerCount now d) /\ consistent (decrementPlayerCount now d) /\
  status (decrementPlayerCount now' (incrementPlayerCount now d)) = status d /\
  playerCount (decrementPlayerCount now' (incrementPlayerCount now d)) = playerCount d.
Proof.
  destruct d as [i st pc hb u].
  unfold consistent, incrementPlayerCount, decrementPlayerCount. cbn.
  intros (H0 & HA & HI).
  destruct st; cbn;
    repeat match goal with
           | |- context [Z.gtb ?a ?b] => rewrite (Z.gtb_ltb a b); destruct (Z.ltb_spec b a)
           | |- context [Z.eqb ?a ?b] => destruct (Z.eqb_spec a b)
           end; cbn;
    repeat split; intros; try discriminate;
    repeat match goal with H : ?x = ?x -> _ |- _ => specialize (H eq_refl) end; lia.
Qed.

Lemma status_count_consistent_witness :
  consistent (incrementPlayerCount 1 (mk_doc "bot-2" Available 0 0 0)) /\
  status (decrementPlayerCount 2 (incrementPlayerCount 1 (mk_doc "bot-2" Available 0 0 0)))
    = Available.
Proof.
  destruct (status_count_consistent 1 2 (mk_doc "bot-2" Available 0 0 0)
              ltac:(unfold consistent; cbn; repeat split; intros; try discriminate; lia))
    as [Hi [_ [Hs _]]].
  split; [exact Hi|exact Hs].
Defined.

(** [markStaleBotsOffline] keeps every document and its id, count and
    heartbeat; a bot with a recent heartbeat or in [Error] is left as it
    is; a stale bot ends [Offline] or [Error]; a second sweep at the same
    clock reading changes nothing. *)
Theorem mark_stale_effect (db : gmap string doc) (now staleThreshold : Z) :
  (forall k d, db !! k = Some d ->
     exists d', markStaleBotsOffline db now staleThreshold !! k = Some d' /\
       _id d' = _id d /\ playerCount d' = playerCount d /\
       lastHeartbeat d' = lastHeartbeat d /\
       (now - staleThreshold <= lastHeartbeat d -> d' = d) /\
       (status d = Error -> d' = d) /\
       (lastHeartbeat d < now - staleThreshold -> status d' = Offline \/ status d' = Error)) /\
  (forall k, markStaleBotsOffline db now staleThreshold !! k = None <-> db !! k = None) /\
  markStaleBotsOffline (markStaleBotsOffline db now staleThreshold) now staleThreshold =
    markStaleBotsOffline db now staleThreshold.
Proof.
  split; [|split].
  - intros k d Hk. unfold markStaleBotsOffline. rewrite lookup_fmap, Hk. cbn.
    eexists. split; [reflexivity|].
    destruct (Z.ltb_spec (lastHeartbeat d) (now - staleThreshold));
      destruct (status d) eqn:Hs; cbn;
      repeat split; intros; try first [reflexivity | lia | discriminate | congruence
                                      | (left; congruence) | (right; congruence)].
  - intros k. unfold markStaleBotsOffline. rewrite lookup_fmap.
    destruct (db !! k); cbn; split; intros; congruence.
  - unfold markStaleBotsOffline. rewrite <- map_fmap_compose. apply map_fmap_ext.
    intros k d _. unfold compose.
    destruct (Z.ltb (lastHeartbeat d) (now - staleThreshold)) eqn:Hl;
      destruct (status d) eqn:Hs; cbn; rewrite ?Hl, ?Hs; reflexivity.
Qed.

End StatusFacts.

Section SortFacts.
Import Cluster Orders.

Lemma insert_by_in {A} (cmp : A -> A -> Z) (x : A) (l : list A) (e : A) :
  In e (JsSort.insert_by cmp x l) <-> x = e \/ In e l.
Proof.
  induction l as [|y l IH]; cbn; [tauto|].
  destruct (Z.ltb (cmp x y) 0); cbn; [tauto|]. rewrite IH. tauto.
Qed.

Lemma sort_by_in {A} (cmp : A -> A -> Z) (l : list A) (e : A) :
  In e (JsSort.sort_by cmp l) <-> In e l.
Proof.
  unfold JsSort.sort_by.
  cut (forall acc, In e (fold_left (fun acc x => JsSort.insert_by cmp x acc) l acc) <->
                   In e acc \/ In e l).
  { intros H. rewrite H. cbn. tauto. }
  induction l as [|x l IH]; intros acc; cbn; [tauto|].
  rewrite IH, insert_by_in. tauto.
Qed.

Lemma insert_by_head_least {A} (key : A -> Z) (x : A) (l : list A) :
  head_least key l -> head_least key (JsSort.insert_by (fun a b => key a - key b) x l).
Proof.
  destruct l as [|y l]; cbn; [intros _; constructor|].
  intros Hl. destruct (Z.ltb_spec (key x - key y) 0); cbn.
  - constructor; [lia|]. eapply Forall_impl; [exact Hl|]. cbn. intros e He. lia.
  - apply List.Forall_forall. intros e He. apply insert_by_in in He as [<-|He]; [lia|].
    rewrite List.Forall_forall in Hl. exact (Hl e He).
Qed.

Lemma sort_by_head_least {A} (key : A -> Z) (l : list A) :
  head_least key (JsSort.sort_by (fun a b => key a - key b) l).
Proof.
  unfold JsSort.sort_by.
  cut (forall acc, head_least key acc ->
         head_least key (fold_left (fun acc x => JsSort.insert_by (fun a b => key a - key b) x acc)
                           l acc)).
  { intros H. apply H. exact I. }
  induction l as [|x l IH]; intros acc Hacc; cbn; [exact Hacc|].
  apply IH. apply insert_by_head_least. exact Hacc.
Qed.

Lemma insert_by_mains_first (x : string * client) (l : list (string * client)) :
  mains_first l -> mains_first (JsSort.insert_by Balancer.priority_cmp x l).
Proof.
  induction l as [|y l IH]; cbn.
  - intros _. split; [intros _; constructor|exact I].
  - intros [Hy Hl]. unfold Balancer.priority_cmp.
    destruct (isMainBot (snd x)) eqn:Hx, (isMainBot (snd y)) eqn:Hy'; cbn.
    + destruct (Z.ltb (playerCount (snd x) - playerCount (snd y)) 0); cbn.
      * rewrite Hx, Hy'. split; [discriminate|split; [exact Hy|exact Hl]].
      * rewrite Hy'. split; [discriminate|exact (IH Hl)].
    + rewrite Hx, Hy'. split; [discriminate|split; [exact Hy|exact Hl]].
    + rewrite Hy'. split; [discriminate|exact (IH Hl)].
    + destruct (Z.ltb (playerCount (snd x) - playerCount (snd y)) 0); cbn.
      * rewrite Hx, Hy'. split; [intros _; constructor; [exact Hy'|exact (Hy eq_refl)]|].
        split; [exact Hy|exact Hl].
      * rewrite Hy'. split; [|exact (IH Hl)].
        intros _. apply List.Forall_forall. intros e He.
        apply insert_by_in in He as [<-|He]; [exact Hx|].
        specialize (Hy eq_refl). rewrite List.Forall_forall in Hy. exact (Hy e He).
Qed.

Lemma sort_by_mains_first (l : list (string * client)) :
  mains_first (JsSort.sort_by Balancer.priority_cmp l).
Proof.
  unfold JsSort.sort_by.
  cut (forall acc, mains_first acc ->
         mains_first (fold_left (fun acc x => JsSort.insert_by Balancer.priority_cmp x acc)
                        l acc)).
  { intros H. apply H. exact I. }
  induction l as [|x l IH]; intros acc Hacc; cbn; [exact Hacc|].
  apply IH. apply insert_by_mains_first. exact Hacc.
Qed.

Lemma find_mains_first (p : string * client -> bool) (l : list (string * client))
    (r : string * client) :
  mains_first l -> (exists e, In e l /\ isMainBot (snd e) = true /\ p e = true) ->
  find p l = Some r -> isMainBot (snd r) = true.
Proof.
  induction l as [|x l IH]; cbn; [discriminate|].
  intros [Hx Hl] [e [He [Hme Hpe]]] Hf.
  destruct (p x) eqn:Hpx.
  - injection Hf as <-. destruct (isMainBot (snd x)) eqn:Hmx; [reflexivity|]. exfalso.
    destruct He as [<-|He]; [congruence|].
    specialize (Hx eq_refl). rewrite List.Forall_forall in Hx. specialize (Hx e He). congruence.
  - apply IH; [exact Hl| |exact Hf]. exists e.
    destruct He as [<-|He]; [congruence|]. auto.
Qed.

Lemma ready_filter_nil (bots : bot_cluster) :
  (forall e, In e bots -> isReady (snd e) = false) ->
  List.filter (fun e => isReady (snd e)) bots = [].
Proof.
  induction bots as [|x bots IH]; intros Hno; cbn; [reflexivity|].
  rewrite (Hno x (or_introl eq_refl)). apply IH. intros e He. apply Hno. right. exact He.
Qed.

End SortFacts.

Section SelectFacts.
Import Cluster Balancer.

(** The priority selector returns a ready bot of the cluster, and returns
    [null] only when no bot is ready. *)
Theorem priority_selects_ready_member (opts : lb_options) (bots : bot_cluster) :
  match _selectByPriority opts bots with
  | Some e => In e bots /\ isReady (snd e) = true
  | None => forall e, In e bots -> isReady (snd e) = false
  end.
Proof.
  unfold _selectByPriority.
  set (sorted := JsSort.sort_by _ _).
  assert (Hs : forall x, In x sorted <-> In x bots /\ isReady (snd x) = true)
    by (intros x; unfold sorted; rewrite sort_by_in, filter_In; reflexivity).
  clearbody sorted.
  destruct (find _ sorted) as [e|] eqn:Hf.
  - apply find_some in Hf as [Hin _]. exact (proj1 (Hs e) Hin).
  - destruct sorted as [|h t]; cbn.
    + intros e He. destruct (isReady (snd e)) eqn:Hr; [|reflexivity].
      destruct (proj2 (Hs e) (conj He Hr)).
    + exact (proj1 (Hs h) (or_introl eq_refl)).
Qed.

(** If some ready main bot has fewer live players than
    [maxPlayersPerBot], the priority selector returns a ready main bot under
    that capacity. *)
Theorem priority_prefers_main (opts : lb_options) (bots : bot_cluster) :
  (exists e, In e bots /\ isReady (snd e) = true /\ isMainBot (snd e) = true /\
     players_size (snd e) < maxPlayersPerBot opts) ->
  exists r, _selectByPriority opts bots = Some r /\ In r bots /\ isReady (snd r) = true /\
    isMainBot (snd r) = true /\ players_size (snd r) < maxPlayersPerBot opts.
Proof.
  intros (e & He & Hr & Hm & Hp). unfold _selectByPriority.
  pose proof (sort_by_mains_first (List.filter (fun e => isReady (snd e)) bots)) as Hmf.
  set (sorted := JsSort.sort_by _ _) in *.
  assert (Hs : forall x, In x sorted <-> In x bots /\ isReady (snd x) = true)
    by (intros x; unfold sorted; rewrite sort_by_in, filter_In; reflexivity).
  clearbody sorted.
  assert (Hin : In e sorted) by (apply Hs; auto).
  destruct (find _ sorted) as [r|] eqn:Hf.
  - exists r. split; [reflexivity|].
    pose proof Hf as Hf'. apply find_some in Hf' as [Hr' Hpr]. cbn in Hpr.
    apply Z.ltb_lt in Hpr. destruct (proj1 (Hs r) Hr') as [Hrb Hrr].
    split; [exact Hrb|split; [exact Hrr|split; [|exact Hpr]]].
    eapply find_mains_first; [exact Hmf| |exact Hf].
    exists e. split; [exact Hin|split; [exact Hm|apply Z.ltb_lt; exact Hp]].
  - exfalso. pose proof (find_none _ _ Hf e Hin) as H. cbn in H.
    apply Z.ltb_ge in H. lia.
Qed.

Lemma priority_prefers_main_witness :
  exists r, _selectByPriority (mk_options "priority" 100) Scenario.cluster = Some r /\
    isMainBot (snd r) = true.
Proof.
  destruct (priority_prefers_main (mk_options "priority" 100) Scenario.cluster
              ltac:(exists ("bot-1", Scenario.bot1);
                    split; [left; reflexivity|vm_compute; repeat split]))
    as (r & H1 & _ & _ & H2 & _).
  exists r. split; [exact H1|exact H2].
Defined.

(** The round-robin selector returns a ready bot with the least cached
    [playerCount] among the ready bots, and [null] only when no bot is
    ready. *)
Theorem round_robin_least_loaded (bots : bot_cluster) :
  match _selectByRoundRobin bots with
  | Some e => In e bots /\ isReady (snd e) = true /\
      forall e', In e' bots -> isReady (snd e') = true ->
        playerCount (snd e) <= playerCount (snd e')
  | None => forall e, In e bots -> isReady (snd e) = false
  end.
Proof.
  unfold _selectByRoundRobin.
  pose proof (sort_by_head_least (fun e : string * client => playerCount (snd e))
                (List.filter (fun e => isReady (snd e)) bots)) as Hh.
  cbv beta in Hh.
  set (sorted := JsSort.sort_by _ _) in *.
  assert (Hs : forall x, In x sorted <-> In x bots /\ isReady (snd x) = true)
    by (intros x; unfold sorted; rewrite sort_by_in, filter_In; reflexivity).
  clearbody sorted.
  destruct sorted as [|h t]; cbn.
  - intros e He. destruct (isReady (snd e)) eqn:Hr; [|reflexivity].
    destruct (proj2 (Hs e) (conj He Hr)).
  - destruct (proj1 (Hs h) (or_introl eq_refl)) as [Hhb Hhr].
    split; [exact Hhb|split; [exact Hhr|]].
    intros e' He' Hr'. destruct (proj2 (Hs e') (conj He' Hr')) as [<-|Ht]; [lia|].
    cbn in Hh. rewrite List.Forall_forall in Hh. exact (Hh e' Ht).
Qed.

(** With no ready bot in the cluster, [assignBot] returns [null] after
    running the selector and leaves the store unchanged, whatever document
    the guild has. *)
Theorem assign_without_ready_bot (opts : lb_options) (bots : bot_cluster)
    (db : Store.store) (now : Z) (g : string) :
  (forall e, In e bots -> isReady (snd e) = false) ->
  assignBot opts bots db now g = (None, db, true).
Proof.
  intros Hno. pose proof (ready_filter_nil bots Hno) as Hf.
  assert (Hsel : _selectBot opts bots = None).
  { unfold _selectBot, _selectByPriority, _selectByRoundRobin. rewrite Hf. cbn.
    destruct (String.eqb _ _); [reflexivity|]. destruct (String.eqb _ _); reflexivity. }
  unfold assignBot.
  destruct (Store.findById db g) as [a|]; cbv beta iota zeta; [|rewrite Hsel; reflexivity].
  destruct (Store.isActive a); cbv beta iota; [|rewrite Hsel; reflexivity].
  destruct (cluster_get bots (Store.assignedBotId a)) as [c|] eqn:Hc;
    cbv beta iota; [|rewrite Hsel; reflexivity].
  pose proof (Hno _ (cluster_get_in _ _ _ Hc)) as Hr. cbn in Hr. rewrite Hr.
  cbv beta iota. rewrite Hsel. reflexivity.
Qed.

Lemma assign_without_ready_bot_witness :
  assignBot (mk_options "priority" 100)
    [("bot-2", mk_client "bot-2" false false 0 None "c-2")]
    {[ "guild1" := Scenario.asg_bot2 ]} 900 "guild1" =
  (None, {[ "guild1" := Scenario.asg_bot2 ]}, true).
Proof.
  apply assign_without_ready_bot. intros e [<-|[]]. reflexivity.
Defined.

End SelectFacts.
